(** * Webflow AI SDK tools: a shallow embedding and its checked properties

    The development follows [src/lib/utils.ts] (site-identifier resolution and
    the field normalisers), [src/lib/api.ts] (the transport adapter [callApi])
    and [src/tools/index.ts] (the eight tool executors).

    Modelling conventions.
    - A JavaScript value is a [JsValue]: the values [JSON.parse] produces,
      plus [undefined].  Numbers are the integers ([Z]); fractions, [NaN] and
      the infinities are outside the model.  Objects carry own data
      properties only: names inherited from a prototype ([constructor],
      [toString], array indices, [length]) are not modelled, and none of them
      is read by the executors.
    - A JavaScript string is a [string], one character per UTF-16 code unit,
      so that [s.length] is [String.length s].
    - An exception is a [Thrown] value; code that may throw returns a
      [Completion].
    - An [async] function is an [Io] computation: it threads the log of the
      requests handed to [fetch] and ends in a [Completion].  [fetch] itself
      is a parameter of the [Runtime], together with [process.env]. *)

From Stdlib Require Import ZArith Ascii String.
From stdpp Require Import base gmap strings list pretty.

Set Warnings "-register-all".


(** ** JavaScript values *)

Inductive JsValue : Type :=
  | JUndefined
  | JNull
  | JBool (b : bool)
  | JNum (n : Z)
  | JStr (s : string)
  | JArr (items : list JsValue)
  | JObj (props : gmap string JsValue).

(** [!s] on a string is [negb (nonEmpty s)]. *)
Definition nonEmpty (s : string) : bool :=
  match s with
  | EmptyString => false
  | String _ _ => true
  end.

(** ToBoolean: the test of [if (v)], [v ? a : b], [!v] and [a || b]. *)
Definition truthy (v : JsValue) : bool :=
  match v with
  | JUndefined | JNull => false
  | JBool b => b
  | JNum n => negb (n =? 0)%Z
  | JStr s => nonEmpty s
  | JArr _ | JObj _ => true
  end.

(** [a ?? b] *)
Definition coalesce (a b : JsValue) : JsValue :=
  match a with
  | JUndefined | JNull => b
  | _ => a
  end.

Infix "??" := coalesce (at level 45, left associativity).

(** [String(v)] and the conversion of a template literal.  An array joins its
    elements with a comma, [null] and [undefined] elements giving the empty
    string. *)
Fixpoint ToString (v : JsValue) : string :=
  match v with
  | JUndefined => "undefined"
  | JNull => "null"
  | JBool true => "true"
  | JBool false => "false"
  | JNum n => pretty n
  | JStr s => s
  | JArr items =>
      (fix join (l : list JsValue) : string :=
         match l with
         | [] => ""
         | x :: rest =>
             let sx := match x with
                       | JUndefined | JNull => ""
                       | _ => ToString x
                       end in
             match rest with
             | [] => sx
             | _ :: _ => sx +:+ "," +:+ join rest
             end
         end) items
  | JObj _ => "[object Object]"
  end.

(** [Number(v)]: the coercion is left symbolic, no executor inspects its
    result. *)
Inductive JsNumber : Type :=
  | Number (v : JsValue).

(** The own properties of a value that is neither [null] nor [undefined]. *)
Definition ownProps (v : JsValue) : gmap string JsValue :=
  match v with
  | JObj props => props
  | _ => ∅
  end.

(** [o[k]] and [o.k] on an object: [undefined] when the key is missing. *)
Definition member (o : gmap string JsValue) (k : string) : JsValue :=
  default JUndefined (o !! k).

Notation "o .[ k ]" := (member o k) (at level 1, left associativity, format "o .[ k ]").

(** An optional string argument ([string | undefined]) as a value. *)
Definition ofOptString (o : option string) : JsValue :=
  match o with
  | Some s => JStr s
  | None => JUndefined
  end.

(** ** Exceptions *)

(** What a [catch] clause receives: an [Error] instance with its [message],
    or some other value. *)
Inductive Thrown : Type :=
  | ErrorInstance (message : string)
  | NotAnError.

Inductive Completion (A : Type) : Type :=
  | Normal (a : A)
  | Abrupt (t : Thrown).

Arguments Normal {A} a.
Arguments Abrupt {A} t.

Definition bindC {A B : Type} (c : Completion A) (k : A -> Completion B) : Completion B :=
  match c with
  | Normal a => k a
  | Abrupt t => Abrupt t
  end.

Declare Scope completion_scope.
Delimit Scope completion_scope with comp.

Notation "'let*' x := c 'in' k" := (bindC c (fun x => k))
  (at level 10, x name, c at level 100, k at level 200) : completion_scope.

(** [l.map(f)] where the callback may throw. *)
Fixpoint mapC {A B : Type} (f : A -> Completion B) (l : list A) : Completion (list B) :=
  match l with
  | [] => Normal []
  | x :: rest =>
      bindC (f x) (fun y => bindC (mapC f rest) (fun ys => Normal (y :: ys)))
  end.

(** The [TypeError] of a property read on [null] or [undefined]. *)
Definition cannotRead (v : JsValue) (key : string) : Thrown :=
  ErrorInstance ("Cannot read properties of " +:+ ToString v +:+ " (reading '" +:+ key +:+ "')").

(** The [TypeError] of calling something that is not a function. *)
Definition notAFunction (what : string) : Thrown :=
  ErrorInstance (what +:+ " is not a function").

(** The first property read on [v], of [key]: it throws on [null] and
    [undefined]; afterwards the reads of [v] are [member]s of the result. *)
Definition properties (v : JsValue) (key : string) : Completion (gmap string JsValue) :=
  match v with
  | JUndefined | JNull => Abrupt (cannotRead v key)
  | _ => Normal (ownProps v)
  end.

(** [(v ?? []).map(f)], [what] naming the callee in the [TypeError]. *)
Definition mapOrEmpty {B : Type} (what : string) (v : JsValue) (f : JsValue -> Completion B)
    : Completion (list B) :=
  match v with
  | JUndefined | JNull => Normal []
  | JArr items => mapC f items
  | _ => Abrupt (notAFunction what)
  end.

(** [v?.map(f)] *)
Definition optionalMap {B : Type} (what : string) (v : JsValue) (f : JsValue -> Completion B)
    : Completion (option (list B)) :=
  match v with
  | JUndefined | JNull => Normal None
  | JArr items => bindC (mapC f items) (fun l => Normal (Some l))
  | _ => Abrupt (notAFunction what)
  end.

(** [error instanceof Error ? error.message : fallback] *)
Definition errorMessage (fallback : string) (error : Thrown) : string :=
  match error with
  | ErrorInstance message => message
  | NotAnError => fallback
  end.

(** ** The transport: requests, responses and the runtime *)

Inductive Method : Type := GET | POST | PUT.

(** What [callApi] hands to [fetch].  The URL is kept as its address
    ([BASE_URL] followed by the path) and the ordered query parameters set on
    it; [req_body] is the object given to [JSON.stringify]. *)
Record Request : Type := mkRequest {
  req_url : string;
  req_query : list (string * string);
  req_method : Method;
  req_headers : list (string * string);
  req_body : option (gmap string JsValue)
}.

(** The part of a [Response] that [callApi] reads. *)
Record Response : Type := mkResponse {
  resp_ok : bool;
  resp_status : Z;
  resp_text : Completion string;
  resp_json : Completion JsValue
}.

Inductive FetchOutcome : Type :=
  | Resolves (response : Response)
  | Rejects (reason : Thrown).

(** [process.env] and the global [fetch]; [fetch] answers a request knowing
    the requests made before it. *)
Record Runtime : Type := mkRuntime {
  env : gmap string string;
  fetch : list Request -> Request -> FetchOutcome
}.

(** An asynchronous computation over the log of requests made so far. *)
Definition Io (A : Type) : Type := list Request -> Completion A * list Request.

Definition retIo {A : Type} (a : A) : Io A := fun log => (Normal a, log).

Definition bindIo {A B : Type} (m : Io A) (k : A -> Io B) : Io B :=
  fun log =>
    match m log with
    | (Normal a, log') => k a log'
    | (Abrupt t, log') => (Abrupt t, log')
    end.

(** Synchronous code inside an [async] function. *)
Definition liftIo {A : Type} (c : Completion A) : Io A := fun log => (c, log).

(** [try { body } catch (error) { return handler(error) }] *)
Definition tryCatch {A : Type} (body : Io A) (handler : Thrown -> A) : Io A :=
  fun log =>
    match body log with
    | (Normal a, log') => (Normal a, log')
    | (Abrupt t, log') => (Normal (handler t), log')
    end.

Declare Scope io_scope.
Delimit Scope io_scope with io.

Notation "'await' x := m 'in' k" := (bindIo m (fun x => k))
  (at level 10, x name, m at level 100, k at level 200) : io_scope.
Notation "'const' x := c 'in' k" := (bindIo (liftIo c) (fun x => k))
  (at level 10, x name, c at level 100, k at level 200) : io_scope.

(** ** src/lib/api.ts *)

Definition BASE_URL : string := "https://api.webflow.com/v2".

Definition getApiKey (rt : Runtime) : Completion string :=
  match env rt !! "WEBFLOW_API_KEY" with
  | Some apiKey =>
      if nonEmpty apiKey then Normal apiKey
      else Abrupt (ErrorInstance "WEBFLOW_API_KEY environment variable is required")
  | None => Abrupt (ErrorInstance "WEBFLOW_API_KEY environment variable is required")
  end.

(** A query parameter value: [string | number | undefined]. *)
Inductive ParamValue : Type :=
  | ParamStr (s : string)
  | ParamNum (n : Z).

Definition paramString (v : ParamValue) : string :=
  match v with
  | ParamStr s => s
  | ParamNum n => pretty n
  end.

Record Options : Type := mkOptions {
  opt_method : option Method;
  opt_body : option (gmap string JsValue);
  opt_params : option (list (string * option ParamValue))
}.

Definition noOptions : Options :=
  {| opt_method := None; opt_body := None; opt_params := None |}.

(** The loop over [Object.entries(params)]: an [undefined] value sets
    nothing. *)
Definition searchParams (params : option (list (string * option ParamValue)))
    : list (string * string) :=
  match params with
  | Some entries =>
      omap (fun kv => match snd kv with
                      | Some value => Some (fst kv, paramString value)
                      | None => None
                      end) entries
  | None => []
  end.

(** The end of [callApi], once [fetch] has settled. *)
Definition settle (outcome : FetchOutcome) : Completion JsValue :=
  match outcome with
  | Rejects reason => Abrupt reason
  | Resolves response =>
      if resp_ok response then resp_json response
      else
        bindC (resp_text response) (fun text =>
          Abrupt (ErrorInstance
            ("Webflow API error " +:+ pretty (resp_status response) +:+ ": " +:+ text)))
  end.

Definition buildRequest (apiKey path : string) (options : Options) : Request :=
  {| req_url := BASE_URL +:+ path;
     req_query := searchParams (opt_params options);
     req_method := default GET (opt_method options);
     req_headers :=
       ("Authorization", "Bearer " +:+ apiKey) ::
       match opt_body options with
       | Some _ => [("Content-Type", "application/json")]
       | None => []
       end;
     req_body := opt_body options |}.

Definition callApi (rt : Runtime) (path : string) (options : Options) : Io JsValue :=
  fun log =>
    match getApiKey rt with
    | Abrupt t => (Abrupt t, log)
    | Normal apiKey =>
        let request := buildRequest apiKey path options in
        (settle (fetch rt log request), log ++ [request])
    end.

(** ** src/lib/utils.ts *)

Definition getDefaultSiteId (rt : Runtime) : string :=
  default "" (env rt !! "WEBFLOW_SITE_ID").

Definition siteIdRequired : string :=
  "A site ID is required. Either pass a siteId or set the WEBFLOW_SITE_ID environment variable.".

Definition resolveSiteId (rt : Runtime) (siteId : option string) : Completion string :=
  let resolved :=
    match siteId with
    | Some s => if nonEmpty s then s else getDefaultSiteId rt
    | None => getDefaultSiteId rt
    end in
  if nonEmpty resolved then Normal resolved
  else Abrupt (ErrorInstance siteIdRequired).

Definition getStringField (obj : gmap string JsValue) (snakeCase camelCase : string)
    : option string :=
  if truthy obj.[snakeCase] then Some (ToString obj.[snakeCase])
  else if truthy obj.[camelCase] then Some (ToString obj.[camelCase])
  else None.

Record TitleDescription : Type := mkTitleDescription {
  td_title : option string;
  td_description : option string
}.

Definition parseTitleDescription (raw : JsValue) : option TitleDescription :=
  if truthy raw then
    let r := ownProps raw in
    Some {| td_title := if truthy r.["title"] then Some (ToString r.["title"]) else None;
            td_description :=
              if truthy r.["description"] then Some (ToString r.["description"]) else None |}
  else None.

(** [Object.entries(v)] for a truthy [v]: an array and a string list their
    indices, an object its properties (in the order of the map's keys). *)
Definition entries (v : JsValue) : list (string * JsValue) :=
  match v with
  | JObj props => map_to_list props
  | JArr items => imap (fun i x => (pretty i, x)) items
  | JStr s => imap (fun i c => (pretty i, JStr (String c EmptyString))) (String.list_ascii_of_string s)
  | _ => []
  end.

Record FormField : Type := mkFormField {
  ff_displayName : option string;
  ff_type : option string
}.

Definition parseFormFields (rawFields : JsValue) : Completion (option (gmap string FormField)) :=
  if truthy rawFields then
    (let* parsed :=
       mapC (fun kv : string * JsValue =>
               let* value := properties (snd kv) "displayName" in
               Normal (fst kv,
                       {| ff_displayName :=
                            if truthy value.["displayName"]
                            then Some (ToString value.["displayName"]) else None;
                          ff_type :=
                            if truthy value.["type"]
                            then Some (ToString value.["type"]) else None |}))
            (entries rawFields) in
     let fields : gmap string FormField := list_to_map parsed in
     Normal (if (0 <? size fields)%nat then Some fields else None))%comp
  else Normal None.

(** ** src/lib/schemas.ts: the result shapes *)

Record Domain : Type := mkDomain {
  domain_id : string;
  domain_url : string
}.

Record SiteInfo : Type := mkSiteInfo {
  site_id : string;
  site_displayName : string;
  site_shortName : string;
  site_lastPublished : option string;
  site_lastUpdated : option string;
  site_previewUrl : option string;
  site_timeZone : option string;
  site_designerUrl : string;
  site_settingsUrl : string;
  site_customDomains : option (list Domain)
}.

Record PageInfo : Type := mkPageInfo {
  page_id : string;
  page_title : string;
  page_slug : string;
  page_archived : option bool;
  page_draft : option bool;
  page_createdOn : option string;
  page_lastUpdated : option string;
  page_publishedPath : option string;
  page_seo : option TitleDescription;
  page_openGraph : option TitleDescription
}.

Record FormInfo : Type := mkFormInfo {
  form_id : string;
  form_displayName : string;
  form_pageId : option string;
  form_pageName : option string;
  form_formElementId : option string;
  form_fields : option (gmap string FormField);
  form_createdOn : option string;
  form_lastUpdated : option string
}.

Record FormSubmission : Type := mkFormSubmission {
  sub_id : string;
  sub_displayName : option string;
  sub_dateSubmitted : option string;
  sub_formResponse : JsValue
}.

Record Script : Type := mkScript {
  script_id : string;
  script_location : string;
  script_version : string
}.

Record CustomCodeBlock : Type := mkCustomCodeBlock {
  block_siteId : string;
  block_pageId : option string;
  block_type : option string;
  block_scripts : list Script;
  block_createdOn : option string;
  block_lastUpdated : option string
}.

Record Pagination : Type := mkPagination {
  pg_limit : JsNumber;
  pg_offset : JsNumber;
  pg_total : JsNumber
}.

(** The result of the five list tools.  [items] stands for the field the
    source names [sites], [pages], [forms], [formSubmissions] or [blocks];
    an [undefined] or missing member is [None]. *)
Record ListResult (A : Type) : Type := mkListResult {
  items : list A;
  count : nat;
  pagination : option Pagination;
  error : option string
}.

Arguments mkListResult {A} _ _ _ _.
Arguments items {A} _.
Arguments count {A} _.
Arguments pagination {A} _.
Arguments error {A} _.

Record PublishSiteResult : Type := mkPublishSiteResult {
  pub_success : bool;
  pub_publishedDomains : option (list Domain);
  pub_error : option string
}.

Record UpdatePageResult : Type := mkUpdatePageResult {
  upd_success : bool;
  upd_page : option PageInfo;
  upd_error : option string
}.

Record AddCustomCodeResult : Type := mkAddCustomCodeResult {
  add_success : bool;
  add_scriptId : string;
  add_appliedTo : option string;
  add_error : option string
}.

(** ** src/tools/index.ts: the mapping of upstream objects *)

(** [v ? String(v) : undefined] *)
Definition stringIfTruthy (v : JsValue) : option string :=
  if truthy v then Some (ToString v) else None.

(** [typeof v === "boolean" ? v : undefined] *)
Definition booleanOrUndefined (v : JsValue) : option bool :=
  match v with
  | JBool b => Some b
  | _ => None
  end.

Definition domainOf (d : JsValue) : Completion Domain :=
  (let* o := properties d "id" in
   Normal {| domain_id := ToString (o.["id"] ?? JStr "");
             domain_url := ToString (o.["url"] ?? JStr "") |})%comp.

Definition siteOf (raw : JsValue) : Completion SiteInfo :=
  (let* r := properties raw "customDomains" in
   let domains := r.["customDomains"] in
   let* customDomains := optionalMap "domains?.map" domains domainOf in
   Normal {| site_id := ToString (r.["id"] ?? JStr "");
             site_displayName := ToString (r.["displayName"] ?? JStr "");
             site_shortName := ToString (r.["shortName"] ?? JStr "");
             site_lastPublished := getStringField r "last_published" "lastPublished";
             site_lastUpdated := getStringField r "last_updated" "lastUpdated";
             site_previewUrl := stringIfTruthy r.["previewUrl"];
             site_timeZone := stringIfTruthy r.["timeZone"];
             site_designerUrl :=
               "https://" +:+ ToString r.["shortName"] +:+ ".design.webflow.com";
             site_settingsUrl :=
               "https://webflow.com/dashboard/sites/" +:+ ToString r.["shortName"]
               +:+ "/general";
             site_customDomains := customDomains |})%comp.

Definition pageOf (page : JsValue) : Completion PageInfo :=
  (let* p := properties page "id" in
   Normal {| page_id := ToString (p.["id"] ?? JStr "");
             page_title := ToString (p.["title"] ?? JStr "");
             page_slug := ToString (p.["slug"] ?? JStr "");
             page_archived := booleanOrUndefined p.["archived"];
             page_draft := booleanOrUndefined p.["draft"];
             page_createdOn := getStringField p "created_on" "createdOn";
             page_lastUpdated := getStringField p "last_updated" "lastUpdated";
             page_publishedPath := stringIfTruthy p.["publishedPath"];
             page_seo := parseTitleDescription p.["seo"];
             page_openGraph := parseTitleDescription p.["openGraph"] |})%comp.

Definition formOf (form : JsValue) : Completion FormInfo :=
  (let* f := properties form "id" in
   let* fields := parseFormFields f.["fields"] in
   Normal {| form_id := ToString (f.["id"] ?? JStr "");
             form_displayName := ToString (f.["displayName"] ?? JStr "");
             form_pageId := stringIfTruthy f.["pageId"];
             form_pageName := stringIfTruthy f.["pageName"];
             form_formElementId := getStringField f "form_element_id" "formElementId";
             form_fields := fields;
             form_createdOn := getStringField f "created_on" "createdOn";
             form_lastUpdated := getStringField f "last_updated" "lastUpdated" |})%comp.

Definition submissionOf (submission : JsValue) : Completion FormSubmission :=
  (let* s := properties submission "id" in
   Normal {| sub_id := ToString (s.["id"] ?? JStr "");
             sub_displayName := stringIfTruthy s.["displayName"];
             sub_dateSubmitted := getStringField s "date_submitted" "dateSubmitted";
             sub_formResponse := s.["formResponse"] ?? JObj ∅ |})%comp.

Definition scriptOf (script : JsValue) : Completion Script :=
  (let* s := properties script "id" in
   Normal {| script_id := ToString (s.["id"] ?? JStr "");
             script_location := ToString (s.["location"] ?? JStr "");
             script_version := ToString (s.["version"] ?? JStr "") |})%comp.

Definition blockOf (block : JsValue) : Completion CustomCodeBlock :=
  (let* b := properties block "scripts" in
   let rawScripts := b.["scripts"] in
   let* scripts := mapOrEmpty "rawScripts.map" rawScripts scriptOf in
   Normal {| block_siteId := ToString (b.["siteId"] ?? JStr "");
             block_pageId := stringIfTruthy b.["pageId"];
             block_type := stringIfTruthy b.["type"];
             block_scripts := scripts;
             block_createdOn := getStringField b "created_on" "createdOn";
             block_lastUpdated := getStringField b "last_updated" "lastUpdated" |})%comp.

(** [pagination ? { limit: Number(pagination.limit ?? 0), ... } : undefined] *)
Definition paginationOf (pagination : JsValue) : option Pagination :=
  if truthy pagination then
    let p := ownProps pagination in
    Some {| pg_limit := Number (p.["limit"] ?? JNum 0);
            pg_offset := Number (p.["offset"] ?? JNum 0);
            pg_total := Number (p.["total"] ?? JNum 0) |}
  else None.

(** The [catch] clause of a list tool. *)
Definition listFailure {A : Type} (fallback : string) (error : Thrown) : ListResult A :=
  {| items := []; count := 0; pagination := None;
     error := Some (errorMessage fallback error) |}.

(** ** src/tools/index.ts: the executors *)

(** *** listSites *)

Definition listSitesBody (rt : Runtime) : Io (ListResult SiteInfo) :=
  (await response := callApi rt "/sites" noOptions in
   const r := properties response "sites" in
   const sites := mapOrEmpty "rawSites.map" r.["sites"] siteOf in
   retIo {| items := sites; count := length sites; pagination := None; error := None |})%io.

Definition listSites (rt : Runtime) : Io (ListResult SiteInfo) :=
  tryCatch (listSitesBody rt) (listFailure "Failed to list sites").

(** *** publishSite *)

Record PublishSiteInput : Type := mkPublishSiteInput {
  ps_siteId : option string;
  ps_customDomains : option (list string);
  ps_publishToWebflowSubdomain : option bool
}.

(** The request body [publishSite] builds before the call. *)
Definition publishSiteRequestBody (input : PublishSiteInput) : gmap string JsValue :=
  let body : gmap string JsValue :=
    {[ "publishToWebflowSubdomain" := JBool (default false (ps_publishToWebflowSubdomain input)) ]} in
  match ps_customDomains input with
  | Some customDomains =>
      if (0 <? length customDomains)%nat
      then <["customDomains" := JArr (JStr <$> customDomains)]> body
      else body
  | None => body
  end.

Definition publishSiteBody (rt : Runtime) (input : PublishSiteInput) : Io PublishSiteResult :=
  (const resolvedSiteId := resolveSiteId rt (ps_siteId input) in
   let body := publishSiteRequestBody input in
   await response :=
     callApi rt ("/sites/" +:+ resolvedSiteId +:+ "/publish")
       {| opt_method := Some POST; opt_body := Some body; opt_params := None |} in
   const r := properties response "customDomains" in
   let domains := r.["customDomains"] in
   const publishedDomains := optionalMap "domains?.map" domains domainOf in
   retIo {| pub_success := true; pub_publishedDomains := publishedDomains;
            pub_error := None |})%io.

Definition publishSite (rt : Runtime) (input : PublishSiteInput) : Io PublishSiteResult :=
  tryCatch (publishSiteBody rt input)
    (fun error => {| pub_success := false; pub_publishedDomains := None;
                     pub_error := Some (errorMessage "Failed to publish site" error) |}).

(** *** listPages, listForms, listCustomCode: the same input shape *)

Record ListInput : Type := mkListInput {
  in_siteId : option string;
  in_limit : option Z;
  in_offset : option Z
}.

Definition pageParams (limit offset : option Z) : list (string * option ParamValue) :=
  [("limit", ParamNum <$> limit); ("offset", ParamNum <$> offset)].

Definition listPagesBody (rt : Runtime) (input : ListInput) : Io (ListResult PageInfo) :=
  (const resolvedSiteId := resolveSiteId rt (in_siteId input) in
   await response :=
     callApi rt ("/sites/" +:+ resolvedSiteId +:+ "/pages")
       {| opt_method := None; opt_body := None;
          opt_params := Some (pageParams (in_limit input) (in_offset input)) |} in
   const r := properties response "pages" in
   const pages := mapOrEmpty "rawPages.map" r.["pages"] pageOf in
   retIo {| items := pages; count := length pages;
            pagination := paginationOf r.["pagination"]; error := None |})%io.

Definition listPages (rt : Runtime) (input : ListInput) : Io (ListResult PageInfo) :=
  tryCatch (listPagesBody rt input) (listFailure "Failed to list pages").

Definition listFormsBody (rt : Runtime) (input : ListInput) : Io (ListResult FormInfo) :=
  (const resolvedSiteId := resolveSiteId rt (in_siteId input) in
   await response :=
     callApi rt ("/sites/" +:+ resolvedSiteId +:+ "/forms")
       {| opt_method := None; opt_body := None;
          opt_params := Some (pageParams (in_limit input) (in_offset input)) |} in
   const r := properties response "forms" in
   const forms := mapOrEmpty "rawForms.map" r.["forms"] formOf in
   retIo {| items := forms; count := length forms;
            pagination := paginationOf r.["pagination"]; error := None |})%io.

Definition listForms (rt : Runtime) (input : ListInput) : Io (ListResult FormInfo) :=
  tryCatch (listFormsBody rt input) (listFailure "Failed to list forms").

Definition listCustomCodeBody (rt : Runtime) (input : ListInput)
    : Io (ListResult CustomCodeBlock) :=
  (const resolvedSiteId := resolveSiteId rt (in_siteId input) in
   await response :=
     callApi rt ("/sites/" +:+ resolvedSiteId +:+ "/custom_code/blocks")
       {| opt_method := None; opt_body := None;
          opt_params := Some (pageParams (in_limit input) (in_offset input)) |} in
   const r := properties response "blocks" in
   const blocks := mapOrEmpty "rawBlocks.map" r.["blocks"] blockOf in
   retIo {| items := blocks; count := length blocks;
            pagination := paginationOf r.["pagination"]; error := None |})%io.

Definition listCustomCode (rt : Runtime) (input : ListInput)
    : Io (ListResult CustomCodeBlock) :=
  tryCatch (listCustomCodeBody rt input) (listFailure "Failed to list custom code").

(** *** listFormSubmissions *)

Record ListFormSubmissionsInput : Type := mkListFormSubmissionsInput {
  lfs_siteId : option string;
  lfs_elementId : option string;
  lfs_limit : option Z;
  lfs_offset : option Z
}.

Definition listFormSubmissionsBody (rt : Runtime) (input : ListFormSubmissionsInput)
    : Io (ListResult FormSubmission) :=
  (const resolvedSiteId := resolveSiteId rt (lfs_siteId input) in
   await response :=
     callApi rt ("/sites/" +:+ resolvedSiteId +:+ "/form_submissions")
       {| opt_method := None; opt_body := None;
          opt_params :=
            Some (("elementId", ParamStr <$> lfs_elementId input)
                  :: pageParams (lfs_limit input) (lfs_offset input)) |} in
   const r := properties response "formSubmissions" in
   const formSubmissions :=
     mapOrEmpty "rawSubmissions.map" r.["formSubmissions"] submissionOf in
   retIo {| items := formSubmissions; count := length formSubmissions;
            pagination := paginationOf r.["pagination"]; error := None |})%io.

Definition listFormSubmissions (rt : Runtime) (input : ListFormSubmissionsInput)
    : Io (ListResult FormSubmission) :=
  tryCatch (listFormSubmissionsBody rt input)
    (listFailure "Failed to list form submissions").

(** *** updatePage *)

Record UpdatePageInput : Type := mkUpdatePageInput {
  up_pageId : string;
  up_title : option string;
  up_slug : option string;
  up_seo : option TitleDescription;
  up_openGraph : option TitleDescription
}.

(** [if (x !== undefined) { body[key] = x; }] *)
Definition setIfDefined (key : string) (x : option JsValue) (body : gmap string JsValue)
    : gmap string JsValue :=
  match x with
  | Some v => <[key := v]> body
  | None => body
  end.

(** The object a caller passes as [seo] or [openGraph]: a member is there
    when it was given. *)
Definition titleDescriptionObject (td : TitleDescription) : JsValue :=
  JObj (setIfDefined "description" (JStr <$> td_description td)
         (setIfDefined "title" (JStr <$> td_title td) ∅)).

(** The request body [updatePage] builds before the call. *)
Definition updatePageRequestBody (input : UpdatePageInput) : gmap string JsValue :=
  let body : gmap string JsValue := ∅ in
  let body := setIfDefined "title" (JStr <$> up_title input) body in
  let body := setIfDefined "slug" (JStr <$> up_slug input) body in
  let body := setIfDefined "seo" (titleDescriptionObject <$> up_seo input) body in
  let body := setIfDefined "openGraph" (titleDescriptionObject <$> up_openGraph input) body in
  body.

Definition updatePageBody (rt : Runtime) (input : UpdatePageInput) : Io UpdatePageResult :=
  (let body := updatePageRequestBody input in
   await response :=
     callApi rt ("/pages/" +:+ up_pageId input)
       {| opt_method := Some PUT; opt_body := Some body; opt_params := None |} in
   const page := pageOf response in
   retIo {| upd_success := true; upd_page := Some page; upd_error := None |})%io.

Definition updatePage (rt : Runtime) (input : UpdatePageInput) : Io UpdatePageResult :=
  tryCatch (updatePageBody rt input)
    (fun error => {| upd_success := false; upd_page := None;
                     upd_error := Some (errorMessage "Failed to update page" error) |}).

(** *** addCustomCode *)

Inductive Target : Type := TargetSite | TargetPage.

Inductive Location : Type := Header | Footer.

Definition targetIsPage (t : Target) : bool :=
  match t with
  | TargetPage => true
  | TargetSite => false
  end.

Definition locationString (l : Location) : string :=
  match l with
  | Header => "header"
  | Footer => "footer"
  end.

Record AddCustomCodeInput : Type := mkAddCustomCodeInput {
  ac_siteId : option string;
  ac_target : Target;
  ac_pageId : option string;
  ac_sourceCode : string;
  ac_displayName : string;
  ac_version : string;
  ac_location : Location
}.

(** The double quote character of the message below. *)
Definition dquote : string := String "034"%char EmptyString.

Definition pageIdRequired : string :=
  "A pageId is required when target is " +:+ dquote +:+ "page" +:+ dquote
  +:+ ". Use listPages to find page IDs.".

Definition scriptTooLong (length : nat) : string :=
  "Script exceeds the 2000 character limit (" +:+ pretty length
  +:+ " characters). Consider hosting the script externally.".

(** The [catch] clause and the early returns: [scriptId] is the empty
    string. *)
Definition addFailure (message : string) : AddCustomCodeResult :=
  {| add_success := false; add_scriptId := ""; add_appliedTo := None;
     add_error := Some message |}.

(** [!pageId] is [negb (given pageId)]. *)
Definition given (o : option string) : bool := truthy (ofOptString o).

Definition registerRequestBody (input : AddCustomCodeInput) : gmap string JsValue :=
  {[ "sourceCode" := JStr (ac_sourceCode input);
     "version" := JStr (ac_version input);
     "displayName" := JStr (ac_displayName input) ]}.

Definition scriptPayload (scriptId : string) (input : AddCustomCodeInput)
    : gmap string JsValue :=
  {[ "scripts" :=
       JArr [JObj {[ "id" := JStr scriptId;
                     "location" := JStr (locationString (ac_location input));
                     "version" := JStr (ac_version input) ]}] ]}.

Definition addCustomCodeBody (rt : Runtime) (input : AddCustomCodeInput)
    : Io AddCustomCodeResult :=
  if targetIsPage (ac_target input) && negb (given (ac_pageId input)) then
    retIo (addFailure pageIdRequired)
  else if (2000 <? String.length (ac_sourceCode input))%nat then
    retIo (addFailure (scriptTooLong (String.length (ac_sourceCode input))))
  else
    (const resolvedSiteId := resolveSiteId rt (ac_siteId input) in
     await registered :=
       callApi rt ("/sites/" +:+ resolvedSiteId +:+ "/registered_scripts/inline")
         {| opt_method := Some POST; opt_body := Some (registerRequestBody input);
            opt_params := None |} in
     const r := properties registered "id" in
     let scriptId := ToString (r.["id"] ?? JStr "") in
     if negb (nonEmpty scriptId) then
       retIo (addFailure "Failed to register script: no script ID returned")
     else
       let payload := scriptPayload scriptId input in
       await applied :=
         (if targetIsPage (ac_target input) && given (ac_pageId input) then
            callApi rt ("/pages/" +:+ ToString (ofOptString (ac_pageId input)) +:+ "/custom_code")
              {| opt_method := Some PUT; opt_body := Some payload; opt_params := None |}
          else
            callApi rt ("/sites/" +:+ resolvedSiteId +:+ "/custom_code")
              {| opt_method := Some PUT; opt_body := Some payload; opt_params := None |}) in
       retIo {| add_success := true;
                add_scriptId := scriptId;
                add_appliedTo :=
                  Some (if targetIsPage (ac_target input)
                        then "page:" +:+ ToString (ofOptString (ac_pageId input))
                        else "site:" +:+ resolvedSiteId);
                add_error := None |})%io.

Definition addCustomCode (rt : Runtime) (input : AddCustomCodeInput)
    : Io AddCustomCodeResult :=
  tryCatch (addCustomCodeBody rt input)
    (fun error => addFailure (errorMessage "Failed to add custom code" error)).

(** ** Vocabulary of the statements *)

(** [needle] occurs in [hay]. *)
Definition contains (needle hay : string) : Prop :=
  exists before after, hay = before +:+ needle +:+ after.

(** The script identifier step 1 of [addCustomCode] extracts from the
    registration response: [String(registered.id ?? "")]. *)
Definition scriptIdOf (registered : JsValue) : Completion string :=
  (let* r := properties registered "id" in
   Normal (ToString (r.["id"] ?? JStr "")))%comp.

(** The two preconditions of [addCustomCode], in the order of the source. *)
Definition pageIdMissing (input : AddCustomCodeInput) : bool :=
  targetIsPage (ac_target input) && negb (given (ac_pageId input)).

Definition sourceTooLong (input : AddCustomCodeInput) : bool :=
  (2000 <? String.length (ac_sourceCode input))%nat.

(** The request of step 1 and, for a path, the request of step 2. *)
Definition registerRequest (apiKey resolvedSiteId : string) (input : AddCustomCodeInput)
    : Request :=
  buildRequest apiKey ("/sites/" +:+ resolvedSiteId +:+ "/registered_scripts/inline")
    {| opt_method := Some POST; opt_body := Some (registerRequestBody input);
       opt_params := None |}.

Definition applyPath (resolvedSiteId : string) (input : AddCustomCodeInput) : string :=
  if targetIsPage (ac_target input) && given (ac_pageId input)
  then "/pages/" +:+ ToString (ofOptString (ac_pageId input)) +:+ "/custom_code"
  else "/sites/" +:+ resolvedSiteId +:+ "/custom_code".

Definition applyRequest (apiKey resolvedSiteId scriptId : string) (input : AddCustomCodeInput)
    : Request :=
  buildRequest apiKey (applyPath resolvedSiteId input)
    {| opt_method := Some PUT; opt_body := Some (scriptPayload scriptId input);
       opt_params := None |}.

(** A thrown value from which the [catch] clauses build a non-empty error
    string: anything but an [Error] whose own message is empty. *)
Definition described (t : Thrown) : Prop :=
  match t with
  | ErrorInstance message => message <> ""
  | NotAnError => True
  end.

(** [fetch] and the body readers of its responses reject with described
    values only. *)
Definition outcomeDescribed (outcome : FetchOutcome) : Prop :=
  match outcome with
  | Rejects reason => described reason
  | Resolves response =>
      (forall t, resp_text response = Abrupt t -> described t) /\
      (forall t, resp_json response = Abrupt t -> described t)
  end.

Definition transportDescribed (rt : Runtime) : Prop :=
  forall log request, outcomeDescribed (fetch rt log request).

(** What a synchronous computation may throw. *)
Definition raises {A : Type} (c : Completion A) (E : Thrown -> Prop) : Prop :=
  match c with
  | Normal _ => True
  | Abrupt t => E t
  end.

(** Partial correctness of an asynchronous computation, from every log: a
    normal result satisfies [P], a thrown value satisfies [E]. *)
Definition yields {A : Type} (m : Io A) (P : A -> Prop) (E : Thrown -> Prop) : Prop :=
  forall log,
    match fst (m log) with
    | Normal a => P a
    | Abrupt t => E t
    end.

(** The two states of a result with a success flag. *)
Definition succeeded (success : bool) (error : option string) : Prop :=
  success = true /\ error = None.

Definition failed (success : bool) (error : option string) : Prop :=
  success = false /\ exists e, error = Some e /\ e <> "".

(** The two states of a list result. *)
Definition listed {A : Type} (r : ListResult A) : Prop :=
  error r = None.

Definition listFailed {A : Type} (r : ListResult A) : Prop :=
  items r = [] /\ count r = 0 /\ exists e, error r = Some e /\ e <> "".

Definition exactlyOne (P Q : Prop) : Prop :=
  (P /\ ~ Q) \/ (~ P /\ Q).

(** Dual-key resolution as the specification words it: the first present
    value, stringified, else absent. *)
Definition firstPresentStringified (obj : gmap string JsValue) (snakeCase camelCase : string)
    : option string :=
  match obj !! snakeCase with
  | Some v => Some (ToString v)
  | None =>
      match obj !! camelCase with
      | Some v => Some (ToString v)
      | None => None
      end
  end.

(** The claim that a failure of step 2 still reports the identifier of
    step 1, as the specification words it. *)
Definition stepOneIdentifierCarried (rt : Runtime) (input : AddCustomCodeInput)
    (log : list Request) : Prop :=
  forall apiKey site registered scriptId t,
    pageIdMissing input = false ->
    sourceTooLong input = false ->
    getApiKey rt = Normal apiKey ->
    resolveSiteId rt (ac_siteId input) = Normal site ->
    settle (fetch rt log (registerRequest apiKey site input)) = Normal registered ->
    scriptIdOf registered = Normal scriptId ->
    nonEmpty scriptId = true ->
    settle (fetch rt (log ++ [registerRequest apiKey site input])
              (applyRequest apiKey site scriptId input)) = Abrupt t ->
    exists r,
      fst (addCustomCode rt input log) = Normal r /\
      add_success r = false /\
      add_scriptId r = scriptId /\
      exists e, add_error r = Some e.

(** ** Fixtures, after tests/index.test.ts *)

(** [vi.stubEnv] of the two variables. *)
Definition testEnv : gmap string string :=
  {[ "WEBFLOW_API_KEY" := "test-api-key"; "WEBFLOW_SITE_ID" := "test-site-id" ]}.

(** [mockApiResponse(body, ok, status)], [text] being the serialised body. *)
Definition mockApiResponse (body : JsValue) (text : string) (ok : bool) (status : Z)
    : FetchOutcome :=
  Resolves {| resp_ok := ok; resp_status := status;
              resp_text := Normal text; resp_json := Normal body |}.

(** A [fetch] that answers its n-th call with the n-th queued outcome; past
    the queue the mock resolves to [undefined], on which [response.ok]
    throws. *)
Definition mockFetch (queue : list FetchOutcome) : list Request -> Request -> FetchOutcome :=
  fun log _ =>
    default (Rejects (cannotRead JUndefined "ok")) (queue !! length log).

Definition mockRuntime (queue : list FetchOutcome) : Runtime :=
  {| env := testEnv; fetch := mockFetch queue |}.

(** [s.repeat(n)] *)
Fixpoint repeatString (s : string) (n : nat) : string :=
  match n with
  | O => ""
  | S n' => s +:+ repeatString s n'
  end.

Definition siteScript : AddCustomCodeInput :=
  {| ac_siteId := Some "site-1"; ac_target := TargetSite; ac_pageId := None;
     ac_sourceCode := "console.log('hello');"; ac_displayName := "Hello Script";
     ac_version := "1.0.0"; ac_location := Footer |}.

Definition pageScript : AddCustomCodeInput :=
  {| ac_siteId := Some "site-1"; ac_target := TargetPage; ac_pageId := Some "page-1";
     ac_sourceCode := "console.log('page');"; ac_displayName := "Page Script";
     ac_version := "0.1.0"; ac_location := Header |}.

Definition pageScriptWithoutPageId : AddCustomCodeInput :=
  {| ac_siteId := Some "site-1"; ac_target := TargetPage; ac_pageId := None;
     ac_sourceCode := "console.log('oops');"; ac_displayName := "Oops";
     ac_version := "1.0.0"; ac_location := Footer |}.

Definition longScript : AddCustomCodeInput :=
  {| ac_siteId := Some "site-1"; ac_target := TargetSite; ac_pageId := None;
     ac_sourceCode := repeatString "x" 2001; ac_displayName := "Too Long";
     ac_version := "1.0.0"; ac_location := Footer |}.

Definition script123 : JsValue := JObj {[ "id" := JStr "script-123" ]}.

(** Registration answers with [script123]; the application is accepted. *)
Definition happyUpstream : Runtime :=
  mockRuntime [mockApiResponse script123 "{}" true 200;
               mockApiResponse (JObj ∅) "{}" true 200].

(** Registration answers with [script123]; the application is refused with
    status 500. *)
Definition applyRefused : Runtime :=
  mockRuntime [mockApiResponse script123 "{}" true 200;
               mockApiResponse (JObj ∅) "{}" false 500].

Definition publishToSubdomain : PublishSiteInput :=
  {| ps_siteId := Some "site-1"; ps_customDomains := None;
     ps_publishToWebflowSubdomain := Some true |}.

(** [fetch] rejects with [new Error("")]. *)
Definition silentRejection : Runtime :=
  mockRuntime [Rejects (ErrorInstance "")].

(** A snake-case value that is present and falsy, beside a camel-case
    value. *)
Definition emptySnake : gmap string JsValue :=
  {[ "last_published" := JStr ""; "lastPublished" := JStr "Y" ]}.

Definition zeroSnake : gmap string JsValue :=
  {[ "last_published" := JNum 0; "lastPublished" := JStr "Y" ]}.

Definition updateTitleOnly : UpdatePageInput :=
  {| up_pageId := "page-1"; up_title := Some "About Us"; up_slug := None;
     up_seo := None; up_openGraph := None |}.

Definition publishToNoDomains : PublishSiteInput :=
  {| ps_siteId := Some "site-1"; ps_customDomains := Some [];
     ps_publishToWebflowSubdomain := None |}.

(** A process with a credential and no [WEBFLOW_SITE_ID]. *)
Definition noDefaultSite : Runtime :=
  {| env := {[ "WEBFLOW_API_KEY" := "test-api-key" ]};
     fetch := mockFetch [mockApiResponse (JObj ∅) "{}" true 200] |}.

(** The site of the first [listSites] test. *)
Definition mySite : JsValue :=
  JObj {[ "id" := JStr "site-1";
          "displayName" := JStr "My Site";
          "shortName" := JStr "my-site";
          "lastPublished" := JStr "2025-01-01T00:00:00Z";
          "lastUpdated" := JStr "2025-01-02T00:00:00Z";
          "previewUrl" := JStr "https://preview.webflow.com/site-1";
          "timeZone" := JStr "America/New_York";
          "customDomains" :=
            JArr [JObj {[ "id" := JStr "dom-1"; "url" := JStr "example.com" ]}] ]}.

Definition oneSite : Runtime :=
  mockRuntime [mockApiResponse (JObj {[ "sites" := JArr [mySite] ]}) "{}" true 200].

(** [mockApiResponse({ message: "Not Found" }, false, 404)] *)
Definition notFound : Runtime :=
  mockRuntime
    [mockApiResponse (JObj {[ "message" := JStr "Not Found" ]})
       ("{" +:+ dquote +:+ "message" +:+ dquote +:+ ":" +:+ dquote +:+ "Not Found"
        +:+ dquote +:+ "}")
       false 404].

(** ** src/lib/utils.ts: the description of the default site *)

(** [siteIdDescription]: the hint appended to the tool descriptions, built
    from the default site when the module is loaded. *)
Definition siteIdDescription (rt : Runtime) : string :=
  if nonEmpty (getDefaultSiteId rt)
  then " If not provided, defaults to the configured site: " +:+ getDefaultSiteId rt +:+ "."
  else "".

(** The description of the [siteId] parameter of the list tools:
    [`The ID of the site.${siteIdDescription || " Use listSites ..."}`]. *)
Definition siteIdParameterDescription (rt : Runtime) : string :=
  "The ID of the site." +:+
  (if nonEmpty (siteIdDescription rt) then siteIdDescription rt
   else " Use listSites to find available site IDs. Do NOT guess or fabricate site IDs.").

(** ** The eight tools as one family *)

Inductive Tool : Type :=
  | ListSites
  | PublishSite
  | ListPages
  | UpdatePage
  | ListForms
  | ListFormSubmissions
  | ListCustomCode
  | AddCustomCode.

(** [needsApproval: true] in the declaration of the tool. *)
Definition needsApproval (t : Tool) : bool :=
  match t with
  | PublishSite | UpdatePage | AddCustomCode => true
  | ListSites | ListPages | ListForms | ListFormSubmissions | ListCustomCode => false
  end.

(** A tool together with its validated input. *)
Inductive Invocation : Type :=
  | CallListSites
  | CallPublishSite (input : PublishSiteInput)
  | CallListPages (input : ListInput)
  | CallUpdatePage (input : UpdatePageInput)
  | CallListForms (input : ListInput)
  | CallListFormSubmissions (input : ListFormSubmissionsInput)
  | CallListCustomCode (input : ListInput)
  | CallAddCustomCode (input : AddCustomCodeInput).

Definition toolOf (call : Invocation) : Tool :=
  match call with
  | CallListSites => ListSites
  | CallPublishSite _ => PublishSite
  | CallListPages _ => ListPages
  | CallUpdatePage _ => UpdatePage
  | CallListForms _ => ListForms
  | CallListFormSubmissions _ => ListFormSubmissions
  | CallListCustomCode _ => ListCustomCode
  | CallAddCustomCode _ => AddCustomCode
  end.

Definition ResultOf (t : Tool) : Type :=
  match t with
  | ListSites => ListResult SiteInfo
  | PublishSite => PublishSiteResult
  | ListPages => ListResult PageInfo
  | UpdatePage => UpdatePageResult
  | ListForms => ListResult FormInfo
  | ListFormSubmissions => ListResult FormSubmission
  | ListCustomCode => ListResult CustomCodeBlock
  | AddCustomCode => AddCustomCodeResult
  end.

(** [tool.execute(input)] *)
Definition execute (rt : Runtime) (call : Invocation) : Io (ResultOf (toolOf call)) :=
  match call return Io (ResultOf (toolOf call)) with
  | CallListSites => listSites rt
  | CallPublishSite input => publishSite rt input
  | CallListPages input => listPages rt input
  | CallUpdatePage input => updatePage rt input
  | CallListForms input => listForms rt input
  | CallListFormSubmissions input => listFormSubmissions rt input
  | CallListCustomCode input => listCustomCode rt input
  | CallAddCustomCode input => addCustomCode rt input
  end.

(** The message of a [catch] clause for a value that is not an [Error]. *)
Definition fallbackOf (t : Tool) : string :=
  match t with
  | ListSites => "Failed to list sites"
  | PublishSite => "Failed to publish site"
  | ListPages => "Failed to list pages"
  | UpdatePage => "Failed to update page"
  | ListForms => "Failed to list forms"
  | ListFormSubmissions => "Failed to list form submissions"
  | ListCustomCode => "Failed to list custom code"
  | AddCustomCode => "Failed to add custom code"
  end.

(** The failure result of a tool, with its error string. *)
Definition failureOf (t : Tool) (message : string) : ResultOf t :=
  match t return ResultOf t with
  | ListSites | ListPages | ListForms | ListFormSubmissions | ListCustomCode =>
      {| items := []; count := 0; pagination := None; error := Some message |}
  | PublishSite =>
      {| pub_success := false; pub_publishedDomains := None; pub_error := Some message |}
  | UpdatePage =>
      {| upd_success := false; upd_page := None; upd_error := Some message |}
  | AddCustomCode => addFailure message
  end.

(** The [siteId] argument of the tools that resolve a site. *)
Definition siteArgument (call : Invocation) : option (option string) :=
  match call with
  | CallListSites | CallUpdatePage _ => None
  | CallPublishSite input => Some (ps_siteId input)
  | CallListPages input | CallListForms input | CallListCustomCode input =>
      Some (in_siteId input)
  | CallListFormSubmissions input => Some (lfs_siteId input)
  | CallAddCustomCode input => Some (ac_siteId input)
  end.

(** The site a call works on is [site]: its [siteId] argument resolves to
    it (no condition for a tool without that argument). *)
Definition worksOn (rt : Runtime) (call : Invocation) (site : string) : Prop :=
  forall siteId, siteArgument call = Some siteId -> resolveSiteId rt siteId = Normal site.

(** The checks a call passes before its first request: the two
    preconditions of [addCustomCode]. *)
Definition passesPreconditions (call : Invocation) : bool :=
  match call with
  | CallAddCustomCode input => negb (pageIdMissing input) && negb (sourceTooLong input)
  | _ => true
  end.

(** The first request of a call, for a credential and a resolved site. *)
Definition firstRequest (apiKey site : string) (call : Invocation) : Request :=
  match call with
  | CallListSites => buildRequest apiKey "/sites" noOptions
  | CallPublishSite input =>
      buildRequest apiKey ("/sites/" +:+ site +:+ "/publish")
        {| opt_method := Some POST; opt_body := Some (publishSiteRequestBody input);
           opt_params := None |}
  | CallListPages input =>
      buildRequest apiKey ("/sites/" +:+ site +:+ "/pages")
        {| opt_method := None; opt_body := None;
           opt_params := Some (pageParams (in_limit input) (in_offset input)) |}
  | CallUpdatePage input =>
      buildRequest apiKey ("/pages/" +:+ up_pageId input)
        {| opt_method := Some PUT; opt_body := Some (updatePageRequestBody input);
           opt_params := None |}
  | CallListForms input =>
      buildRequest apiKey ("/sites/" +:+ site +:+ "/forms")
        {| opt_method := None; opt_body := None;
           opt_params := Some (pageParams (in_limit input) (in_offset input)) |}
  | CallListFormSubmissions input =>
      buildRequest apiKey ("/sites/" +:+ site +:+ "/form_submissions")
        {| opt_method := None; opt_body := None;
           opt_params :=
             Some (("elementId", ParamStr <$> lfs_elementId input)
                   :: pageParams (lfs_limit input) (lfs_offset input)) |}
  | CallListCustomCode input =>
      buildRequest apiKey ("/sites/" +:+ site +:+ "/custom_code/blocks")
        {| opt_method := None; opt_body := None;
           opt_params := Some (pageParams (in_limit input) (in_offset input)) |}
  | CallAddCustomCode input => registerRequest apiKey site input
  end.

(** The property of the upstream response under which a list tool reads its
    list. *)
Definition listKey (t : Tool) : string :=
  match t with
  | ListSites => "sites"
  | ListPages => "pages"
  | ListForms => "forms"
  | ListFormSubmissions => "formSubmissions"
  | ListCustomCode => "blocks"
  | PublishSite | UpdatePage | AddCustomCode => ""
  end.


(** [v == null]: the values on which a property read throws. *)
Definition nullish (v : JsValue) : bool :=
  match v with
  | JUndefined | JNull => true
  | _ => false
  end.

(** What an asynchronous computation adds to the log, from every log: at
    most [n] requests, each satisfying [P]. *)
Definition sends {A : Type} (m : Io A) (n : nat) (P : Request -> Prop) : Prop :=
  forall log,
    exists added, snd (m log) = log ++ added /\ length added <= n /\ Forall P added.

(** A request that reads: [GET], no body, no content type. *)
Definition readOnlyRequest (r : Request) : Prop :=
  req_method r = GET /\ req_body r = None /\
  forall value, ("Content-Type", value) ∉ req_headers r.

(** A request that writes: [POST] or [PUT] with a JSON body. *)
Definition writeRequest (r : Request) : Prop :=
  (req_method r = POST \/ req_method r = PUT) /\
  is_Some (req_body r) /\
  ("Content-Type", "application/json") ∈ req_headers r.



(** The tools of [LeadResponseAgent], by the name under which the agent
    registers them. *)
Definition leadResponseAgentTools : list string :=
  ["listSites"; "listForms"; "listFormSubmissions"; "sendEmail"; "createContact";
   "listTemplates"; "getTemplate"].

(** The exports of src/tools/index.ts, by name; the other names of the agent
    are tools of [resend-ai-sdk]. *)
Definition webflowTool (name : string) : option Tool :=
  if decide (name = "listSites") then Some ListSites
  else if decide (name = "publishSite") then Some PublishSite
  else if decide (name = "listPages") then Some ListPages
  else if decide (name = "updatePage") then Some UpdatePage
  else if decide (name = "listForms") then Some ListForms
  else if decide (name = "listFormSubmissions") then Some ListFormSubmissions
  else if decide (name = "listCustomCode") then Some ListCustomCode
  else if decide (name = "addCustomCode") then Some AddCustomCode
  else None.

(** A process without [WEBFLOW_API_KEY]. *)
Definition noCredential : Runtime :=
  {| env := {[ "WEBFLOW_SITE_ID" := "test-site-id" ]};
     fetch := mockFetch [mockApiResponse (JObj ∅) "{}" true 200] |}.

(** [fetch] rejects with a value that is not an [Error]. *)
Definition rejectsWithValue : Runtime :=
  mockRuntime [Rejects NotAnError].

Definition allPages : ListInput :=
  {| in_siteId := None; in_limit := None; in_offset := None |}.

Definition pagesOfBadSite : ListInput :=
  {| in_siteId := Some "bad-id"; in_limit := None; in_offset := None |}.

(** The number of upstream calls in the body of a tool. *)
Definition maxRequests (t : Tool) : nat :=
  match t with
  | AddCustomCode => 2
  | _ => 1
  end.

(** The requests an invocation of [addCustomCode] adds to the log. *)
Definition addCustomCodeRequests (rt : Runtime) (input : AddCustomCodeInput)
    (log : list Request) : list Request :=
  if pageIdMissing input || sourceTooLong input then []
  else
    match resolveSiteId rt (ac_siteId input), getApiKey rt with
    | Normal site, Normal apiKey =>
        registerRequest apiKey site input ::
        match bindC (settle (fetch rt log (registerRequest apiKey site input))) scriptIdOf with
        | Normal scriptId =>
            if nonEmpty scriptId then [applyRequest apiKey site scriptId input] else []
        | Abrupt _ => []
        end
    | _, _ => []
    end.

(** Registration is answered with an object that has no [id]. *)
Definition registrationWithoutId : Runtime :=
  mockRuntime [mockApiResponse (JObj ∅) "{}" true 200;
               mockApiResponse (JObj ∅) "{}" true 200].

Definition siteScriptWithPageId : AddCustomCodeInput :=
  {| ac_siteId := Some "site-1"; ac_target := TargetSite; ac_pageId := Some "page-1";
     ac_sourceCode := "console.log('hello');"; ac_displayName := "Hello Script";
     ac_version := "1.0.0"; ac_location := Footer |}.

Definition fullScript : AddCustomCodeInput :=
  {| ac_siteId := Some "site-1"; ac_target := TargetSite; ac_pageId := None;
     ac_sourceCode := repeatString "x" 2000; ac_displayName := "Full";
     ac_version := "1.0.0"; ac_location := Footer |}.

(** The page of the first [listPages] test. *)
Definition homePage : JsValue :=
  JObj {[ "id" := JStr "page-1";
          "title" := JStr "Home";
          "slug" := JStr "home";
          "archived" := JBool false;
          "draft" := JBool false;
          "createdOn" := JStr "2025-01-01T00:00:00Z";
          "lastUpdated" := JStr "2025-01-02T00:00:00Z";
          "publishedPath" := JStr "/home";
          "seo" := JObj {[ "title" := JStr "Home Page"; "description" := JStr "Welcome" ]};
          "openGraph" :=
            JObj {[ "title" := JStr "OG Home"; "description" := JStr "OG Welcome" ]} ]}.



(** The upstream lists a page and a [null]. *)
Definition pageAndNull : Runtime :=
  mockRuntime [mockApiResponse (JObj {[ "pages" := JArr [homePage; JNull] ]}) "{}" true 200].



(** A result with a success flag is either a success with its payload and
    no error, or a failure with an error and no payload. *)
Definition publishConsistent (r : PublishSiteResult) : Prop :=
  (pub_success r = true /\ pub_error r = None) \/
  (pub_success r = false /\ pub_publishedDomains r = None /\ is_Some (pub_error r)).

Definition updateConsistent (r : UpdatePageResult) : Prop :=
  (upd_success r = true /\ is_Some (upd_page r) /\ upd_error r = None) \/
  (upd_success r = false /\ upd_page r = None /\ is_Some (upd_error r)).

Definition addConsistent (r : AddCustomCodeResult) : Prop :=
  (add_success r = true /\ add_scriptId r <> "" /\ is_Some (add_appliedTo r) /\
   add_error r = None) \/
  (add_success r = false /\ add_scriptId r = "" /\ add_appliedTo r = None /\
   is_Some (add_error r)).



(** ** The combinators *)

Lemma append_assoc (a b c : string) : (a +:+ b) +:+ c = a +:+ (b +:+ c).
Proof.
  induction a as [|x a IH]; [reflexivity|].
  change (String x ((a +:+ b) +:+ c) = String x (a +:+ (b +:+ c))).
  now rewrite IH.
Qed.

Lemma tryCatch_normal {A : Type} (body : Io A) handler log a log' :
  body log = (Normal a, log') -> tryCatch body handler log = (Normal a, log').
Proof. intros H. unfold tryCatch. now rewrite H. Qed.

Lemma tryCatch_abrupt {A : Type} (body : Io A) handler log t log' :
  body log = (Abrupt t, log') -> tryCatch body handler log = (Normal (handler t), log').
Proof. intros H. unfold tryCatch. now rewrite H. Qed.

Lemma callApi_with_key rt path options log apiKey :
  getApiKey rt = Normal apiKey ->
  callApi rt path options log =
    (settle (fetch rt log (buildRequest apiKey path options)),
     log ++ [buildRequest apiKey path options]).
Proof. intros H. unfold callApi. now rewrite H. Qed.

(** ** addCustomCode: the composite workflow *)

Lemma addCustomCode_pageId_missing rt input log :
  pageIdMissing input = true ->
  addCustomCode rt input log = (Normal (addFailure pageIdRequired), log).
Proof.
  intros H. apply tryCatch_normal. unfold addCustomCodeBody.
  fold (pageIdMissing input). now rewrite H.
Qed.

Lemma addCustomCode_source_too_long rt input log :
  pageIdMissing input = false -> sourceTooLong input = true ->
  addCustomCode rt input log =
    (Normal (addFailure (scriptTooLong (String.length (ac_sourceCode input)))), log).
Proof.
  intros H1 H2. apply tryCatch_normal. unfold addCustomCodeBody.
  fold (pageIdMissing input) (sourceTooLong input). now rewrite H1, H2.
Qed.

(** Past the preconditions, with a credential, a site identifier and a
    registration that returned a non-empty script identifier, the whole
    invocation is decided by how step 2 settles. *)
Lemma addCustomCode_after_registration rt input log apiKey site registered scriptId :
  pageIdMissing input = false ->
  sourceTooLong input = false ->
  getApiKey rt = Normal apiKey ->
  resolveSiteId rt (ac_siteId input) = Normal site ->
  settle (fetch rt log (registerRequest apiKey site input)) = Normal registered ->
  scriptIdOf registered = Normal scriptId ->
  nonEmpty scriptId = true ->
  addCustomCode rt input log =
    (Normal
       match settle (fetch rt (log ++ [registerRequest apiKey site input])
                       (applyRequest apiKey site scriptId input)) with
       | Normal _ =>
           {| add_success := true;
              add_scriptId := scriptId;
              add_appliedTo :=
                Some (if targetIsPage (ac_target input)
                      then "page:" +:+ ToString (ofOptString (ac_pageId input))
                      else "site:" +:+ site);
              add_error := None |}
       | Abrupt t => addFailure (errorMessage "Failed to add custom code" t)
       end,
     log ++ [registerRequest apiKey site input; applyRequest apiKey site scriptId input]).
Proof.
  intros Hpage Hlen Hkey Hsite Hreg Hid Hne.
  unfold addCustomCode, tryCatch, addCustomCodeBody.
  fold (pageIdMissing input) (sourceTooLong input). rewrite Hpage, Hlen.
  unfold bindIo at 1. unfold liftIo at 1. rewrite Hsite.
  unfold bindIo at 1. rewrite (callApi_with_key _ _ _ _ _ Hkey).
  fold (registerRequest apiKey site input). rewrite Hreg.
  unfold scriptIdOf, bindC in Hid.
  unfold bindIo at 1. unfold liftIo at 1.
  destruct (properties registered "id") as [r|t]; [|discriminate].
  injection Hid as Hid. rewrite Hid, Hne. cbn [negb].
  unfold bindIo, retIo.
  assert (Hcall :
    (if targetIsPage (ac_target input) && given (ac_pageId input)
     then callApi rt ("/pages/" +:+ ToString (ofOptString (ac_pageId input)) +:+ "/custom_code")
            {| opt_method := Some PUT; opt_body := Some (scriptPayload scriptId input);
               opt_params := None |}
     else callApi rt ("/sites/" +:+ site +:+ "/custom_code")
            {| opt_method := Some PUT; opt_body := Some (scriptPayload scriptId input);
               opt_params := None |})
      (log ++ [registerRequest apiKey site input])
    = (settle (fetch rt (log ++ [registerRequest apiKey site input])
                 (applyRequest apiKey site scriptId input)),
       (log ++ [registerRequest apiKey site input])
         ++ [applyRequest apiKey site scriptId input])).
  { unfold applyRequest, applyPath.
    destruct (targetIsPage (ac_target input) && given (ac_pageId input));
      apply callApi_with_key, Hkey. }
  rewrite Hcall. rewrite <- app_assoc. cbn [app].
  now destruct (settle (fetch rt (log ++ _) _)).
Qed.

(** C1, as amended.  When step 1 returned a non-empty script identifier and
    step 2 fails, [addCustomCode] returns a failure whose error string is set
    (the message of the failure, or the fixed fallback) and whose [scriptId]
    is the empty string: the identifier of step 1 is not reported, and no
    further request is made after the two steps. *)
Theorem addCustomCode_apply_failure rt input log apiKey site registered scriptId t :
  pageIdMissing input = false ->
  sourceTooLong input = false ->
  getApiKey rt = Normal apiKey ->
  resolveSiteId rt (ac_siteId input) = Normal site ->
  settle (fetch rt log (registerRequest apiKey site input)) = Normal registered ->
  scriptIdOf registered = Normal scriptId ->
  nonEmpty scriptId = true ->
  settle (fetch rt (log ++ [registerRequest apiKey site input])
            (applyRequest apiKey site scriptId input)) = Abrupt t ->
  addCustomCode rt input log =
    (Normal {| add_success := false;
               add_scriptId := "";
               add_appliedTo := None;
               add_error := Some (errorMessage "Failed to add custom code" t) |},
     log ++ [registerRequest apiKey site input; applyRequest apiKey site scriptId input]).
Proof.
  intros Hpage Hlen Hkey Hsite Hreg Hid Hne Happly.
  rewrite (addCustomCode_after_registration _ _ _ _ _ _ _ Hpage Hlen Hkey Hsite Hreg Hid Hne).
  now rewrite Happly.
Qed.

Lemma addCustomCode_apply_failure_witness :
  addCustomCode applyRefused siteScript [] =
    (Normal {| add_success := false;
               add_scriptId := "";
               add_appliedTo := None;
               add_error := Some "Webflow API error 500: {}" |},
     [registerRequest "test-api-key" "site-1" siteScript;
      applyRequest "test-api-key" "site-1" "script-123" siteScript]).
Proof.
  apply (addCustomCode_apply_failure applyRefused siteScript [] "test-api-key" "site-1"
           script123 "script-123" (ErrorInstance "Webflow API error 500: {}"));
    reflexivity.
Defined.

(** C1, as the specification states it, fails: on [applyRefused] step 1
    returns "script-123", step 2 is refused, and the result does not carry
    "script-123". *)
Lemma addCustomCode_apply_failure_loses_scriptId :
  ~ stepOneIdentifierCarried applyRefused siteScript [].
Proof.
  intros H.
  destruct (H "test-api-key" "site-1" script123 "script-123"
              (ErrorInstance "Webflow API error 500: {}"))
    as (r & Hr & _ & Hid & _); try reflexivity.
  vm_compute in Hr. injection Hr as <-. discriminate Hid.
Qed.

(** C2.  With target "page" and no [pageId] (absent or empty), whatever the
    length of the source, the result is the failure "A pageId is required..."
    and the log of requests is unchanged.  Otherwise, with a source of more
    than 2000 characters, the result is the failure "Script exceeds the 2000
    character limit (n characters)...", n the actual length, and the log of
    requests is unchanged. *)
Theorem addCustomCode_preconditions rt input log :
  (ac_target input = TargetPage -> given (ac_pageId input) = false ->
   addCustomCode rt input log = (Normal (addFailure pageIdRequired), log)) /\
  (pageIdMissing input = false ->
   (2000 < String.length (ac_sourceCode input))%nat ->
   addCustomCode rt input log =
     (Normal (addFailure (scriptTooLong (String.length (ac_sourceCode input)))), log)) /\
  contains "pageId is required" pageIdRequired /\
  (forall n,
     contains "2000 character" (scriptTooLong n) /\
     contains ("(" +:+ pretty n +:+ " characters)") (scriptTooLong n)).
Proof.
  repeat split.
  - intros Ht Hp. apply addCustomCode_pageId_missing.
    unfold pageIdMissing. now rewrite Ht, Hp.
  - intros Hp Hl. apply addCustomCode_source_too_long; [exact Hp|].
    unfold sourceTooLong. now apply Nat.ltb_lt.
  - exists "A ", (" when target is " +:+ dquote +:+ "page" +:+ dquote
                  +:+ ". Use listPages to find page IDs."). reflexivity.
  - exists "Script exceeds the ",
           (" limit (" +:+ pretty n
            +:+ " characters). Consider hosting the script externally.").
    reflexivity.
  - exists "Script exceeds the 2000 character limit ",
           ". Consider hosting the script externally.".
    unfold scriptTooLong. now rewrite !append_assoc.
Qed.

Lemma addCustomCode_preconditions_witness :
  addCustomCode happyUpstream pageScriptWithoutPageId [] =
    (Normal (addFailure pageIdRequired), []) /\
  addCustomCode happyUpstream longScript [] =
    (Normal (addFailure (scriptTooLong 2001)), []).
Proof.
  destruct (addCustomCode_preconditions happyUpstream pageScriptWithoutPageId [])
    as (Hpage & _).
  destruct (addCustomCode_preconditions happyUpstream longScript [])
    as (_ & Hlong & _).
  split.
  - apply Hpage; reflexivity.
  - apply Hlong; [reflexivity | vm_compute; lia].
Defined.

(** C3.  Past the preconditions, with a credential and a site identifier,
    when the registration call returns an object whose [id] is the script
    identifier (as in [{id: "script-123"}]) and the application call
    succeeds, the result is [{success: true, scriptId, appliedTo}] with no
    error, [appliedTo] being "site:<siteId>" for a site target and
    "page:<pageId>" for a page target, and exactly two requests are added to
    the log: the registration, then the application (sent to the site's
    [custom_code] for a site target, to the page's for a page target). *)
Theorem addCustomCode_registers_then_applies
    rt input log apiKey site registered scriptId applied :
  pageIdMissing input = false ->
  sourceTooLong input = false ->
  getApiKey rt = Normal apiKey ->
  resolveSiteId rt (ac_siteId input) = Normal site ->
  settle (fetch rt log (registerRequest apiKey site input)) = Normal registered ->
  scriptIdOf registered = Normal scriptId ->
  nonEmpty scriptId = true ->
  settle (fetch rt (log ++ [registerRequest apiKey site input])
            (applyRequest apiKey site scriptId input)) = Normal applied ->
  exists appliedTo,
    addCustomCode rt input log =
      (Normal {| add_success := true;
                 add_scriptId := scriptId;
                 add_appliedTo := Some appliedTo;
                 add_error := None |},
       log ++ [registerRequest apiKey site input;
               applyRequest apiKey site scriptId input]) /\
    req_url (registerRequest apiKey site input) =
      BASE_URL +:+ "/sites/" +:+ site +:+ "/registered_scripts/inline" /\
    (ac_target input = TargetSite ->
     appliedTo = "site:" +:+ site /\
     req_url (applyRequest apiKey site scriptId input) =
       BASE_URL +:+ "/sites/" +:+ site +:+ "/custom_code") /\
    (forall pageId,
       ac_target input = TargetPage -> ac_pageId input = Some pageId ->
       appliedTo = "page:" +:+ pageId /\
       req_url (applyRequest apiKey site scriptId input) =
         BASE_URL +:+ "/pages/" +:+ pageId +:+ "/custom_code").
Proof.
  intros Hpage Hlen Hkey Hsite Hreg Hid Hne Happly.
  eexists. split; [|split; [reflexivity|split]].
  - rewrite (addCustomCode_after_registration _ _ _ _ _ _ _
               Hpage Hlen Hkey Hsite Hreg Hid Hne).
    rewrite Happly. reflexivity.
  - intros Ht. unfold applyRequest, applyPath. rewrite Ht. split; reflexivity.
  - intros pageId Ht Hp. unfold pageIdMissing in Hpage.
    unfold applyRequest, applyPath. rewrite Ht, Hp in *. cbn [targetIsPage andb] in *.
    destruct (given (Some pageId)); [|discriminate]. split; reflexivity.
Qed.

Lemma addCustomCode_registers_then_applies_witness :
  (exists appliedTo,
     addCustomCode happyUpstream siteScript [] =
       (Normal {| add_success := true; add_scriptId := "script-123";
                  add_appliedTo := Some appliedTo; add_error := None |},
        [registerRequest "test-api-key" "site-1" siteScript;
         applyRequest "test-api-key" "site-1" "script-123" siteScript]) /\
     appliedTo = "site:site-1") /\
  (exists appliedTo,
     addCustomCode happyUpstream pageScript [] =
       (Normal {| add_success := true; add_scriptId := "script-123";
                  add_appliedTo := Some appliedTo; add_error := None |},
        [registerRequest "test-api-key" "site-1" pageScript;
         applyRequest "test-api-key" "site-1" "script-123" pageScript]) /\
     appliedTo = "page:page-1").
Proof.
  split.
  - destruct (addCustomCode_registers_then_applies happyUpstream siteScript []
                "test-api-key" "site-1" script123 "script-123" (JObj ∅))
      as (appliedTo & Hrun & _ & Hsite & _); try reflexivity.
    exists appliedTo. split; [exact Hrun|]. now apply Hsite.
  - destruct (addCustomCode_registers_then_applies happyUpstream pageScript []
                "test-api-key" "site-1" script123 "script-123" (JObj ∅))
      as (appliedTo & Hrun & _ & _ & Hpage); try reflexivity.
    exists appliedTo. split; [exact Hrun|]. now apply (Hpage "page-1").
Defined.

(** ** What the executors may throw, and what they return *)

Lemma append_nonempty_l (a b : string) : a <> "" -> a +:+ b <> "".
Proof. destruct a; [congruence | discriminate]. Qed.

Lemma append_nonempty_r (a b : string) : b <> "" -> a +:+ b <> "".
Proof. destruct a; [trivial | discriminate]. Qed.

Lemma errorMessage_nonempty fallback t :
  fallback <> "" -> described t -> errorMessage fallback t <> "".
Proof. intros Hf Ht. now destruct t. Qed.

Lemma raises_any {A : Type} (c : Completion A) : raises c (fun _ => True).
Proof. now destruct c. Qed.

Lemma raises_bindC {A B : Type} (c : Completion A) (k : A -> Completion B) E :
  raises c E -> (forall a, raises (k a) E) -> raises (bindC c k) E.
Proof. intros Hc Hk. destruct c; [apply Hk | exact Hc]. Qed.

Lemma raises_mapC {A B : Type} (f : A -> Completion B) l E :
  (forall x, raises (f x) E) -> raises (mapC f l) E.
Proof.
  intros Hf. induction l as [|x l IH]; [exact I|].
  cbn [mapC]. apply raises_bindC; [apply Hf|]. intros y.
  apply raises_bindC; [exact IH|]. intros ys. exact I.
Qed.

Lemma described_cannotRead v key : described (cannotRead v key).
Proof. apply append_nonempty_l. discriminate. Qed.

Lemma described_notAFunction what : described (notAFunction what).
Proof. apply append_nonempty_r. discriminate. Qed.

Lemma raises_properties v key : raises (properties v key) described.
Proof. destruct v; try exact I; apply described_cannotRead. Qed.

Lemma raises_mapOrEmpty {B : Type} what v (f : JsValue -> Completion B) :
  (forall x, raises (f x) described) -> raises (mapOrEmpty what v f) described.
Proof.
  intros Hf. destruct v; try exact I; try apply described_notAFunction.
  now apply raises_mapC.
Qed.

Lemma raises_optionalMap {B : Type} what v (f : JsValue -> Completion B) :
  (forall x, raises (f x) described) -> raises (optionalMap what v f) described.
Proof.
  intros Hf. destruct v; try exact I; try apply described_notAFunction.
  apply raises_bindC; [now apply raises_mapC | intros; exact I].
Qed.

Lemma raises_resolveSiteId rt siteId : raises (resolveSiteId rt siteId) described.
Proof. unfold resolveSiteId. destruct (nonEmpty _); [exact I | discriminate]. Qed.

Lemma raises_getApiKey rt : raises (getApiKey rt) described.
Proof.
  unfold getApiKey. destruct (env rt !! _) as [k|]; [|discriminate].
  destruct (nonEmpty k); [exact I | discriminate].
Qed.

Create HintDb raises discriminated.

#[local] Hint Resolve raises_properties raises_resolveSiteId raises_bindC
  raises_mapOrEmpty raises_optionalMap raises_mapC : raises.

(** Splits a chain of binds, leaving the mapping callbacks as goals. *)
Ltac raises_chain :=
  repeat first
    [ exact I
    | apply raises_properties
    | apply raises_bindC; [|intros ?]
    | apply raises_mapOrEmpty; intros ?
    | apply raises_optionalMap; intros ? ].

Lemma raises_domainOf d : raises (domainOf d) described.
Proof. unfold domainOf. raises_chain. Qed.

Lemma raises_siteOf raw : raises (siteOf raw) described.
Proof. unfold siteOf. raises_chain. Qed.

Lemma raises_pageOf page : raises (pageOf page) described.
Proof. unfold pageOf. raises_chain. Qed.

Lemma raises_parseFormFields rawFields : raises (parseFormFields rawFields) described.
Proof.
  unfold parseFormFields. destruct (truthy rawFields); [|exact I].
  apply raises_bindC; [|intros; exact I].
  apply raises_mapC. intros kv. raises_chain.
Qed.

Lemma raises_formOf form : raises (formOf form) described.
Proof. unfold formOf. raises_chain. apply raises_parseFormFields. Qed.

Lemma raises_submissionOf submission : raises (submissionOf submission) described.
Proof. unfold submissionOf. raises_chain. Qed.

Lemma raises_scriptOf script : raises (scriptOf script) described.
Proof. unfold scriptOf. raises_chain. Qed.

Lemma raises_blockOf block : raises (blockOf block) described.
Proof. unfold blockOf. raises_chain. Qed.

#[local] Hint Resolve raises_domainOf raises_siteOf raises_pageOf raises_formOf
  raises_submissionOf raises_blockOf raises_any : raises.

Lemma settle_described outcome :
  outcomeDescribed outcome -> raises (settle outcome) described.
Proof.
  destruct outcome as [response|reason]; [|trivial].
  intros [Htext Hjson]. cbn [settle]. destruct (resp_ok response).
  - destruct (resp_json response) eqn:E; [exact I | now apply Hjson].
  - destruct (resp_text response) eqn:E; [|now apply Htext].
    apply append_nonempty_l. discriminate.
Qed.

Lemma yields_ret {A : Type} (a : A) (P : A -> Prop) E : P a -> yields (retIo a) P E.
Proof. intros H log. exact H. Qed.

Lemma yields_lift {A : Type} (c : Completion A) E :
  raises c E -> yields (liftIo c) (fun _ => True) E.
Proof. intros H log. cbn. now destruct c. Qed.

Lemma yields_bind {A B : Type} (m : Io A) (k : A -> Io B) P E :
  yields m (fun _ => True) E -> (forall a, yields (k a) P E) -> yields (bindIo m k) P E.
Proof.
  intros Hm Hk log. unfold bindIo. specialize (Hm log).
  destruct (m log) as [[a|t] log']; [apply Hk | exact Hm].
Qed.

Lemma yields_callApi rt path options :
  transportDescribed rt -> yields (callApi rt path options) (fun _ => True) described.
Proof.
  intros Hrt log. unfold callApi.
  pose proof (raises_getApiKey rt) as Hkey.
  destruct (getApiKey rt) as [apiKey|t]; [|exact Hkey].
  cbn [fst]. pose proof (settle_described _ (Hrt log (buildRequest apiKey path options))) as H.
  now destruct (settle _).
Qed.

Lemma yields_anything {A : Type} (m : Io A) : yields m (fun _ => True) (fun _ => True).
Proof. intros log. now destruct (fst (m log)). Qed.

(** A [try]/[catch] whose handler returns always returns. *)
Lemma tryCatch_returns {A : Type} (body : Io A) (handler : Thrown -> A) P E log :
  yields body P E -> (forall t, E t -> P (handler t)) ->
  exists r, fst (tryCatch body handler log) = Normal r /\ P r.
Proof.
  intros Hbody Hhandler. unfold tryCatch. specialize (Hbody log).
  destruct (body log) as [[a|t] log']; cbn [fst] in *; eauto.
Qed.

(** Walks the body of an executor down to its [return]. *)
Ltac io_chain Hrt :=
  repeat first
    [ apply yields_bind; [|intros ?]
    | apply yields_anything
    | apply yields_callApi; exact Hrt
    | apply yields_lift; solve [auto with raises] ].

(** C4.  Each of the five list tools returns, for every runtime (every
    upstream behaviour) and from every log, a result whose [count] is the
    length of its list. *)
Theorem list_count_is_length rt log :
  (exists r, fst (listSites rt log) = Normal r /\ count r = length (items r)) /\
  (forall input,
     exists r, fst (listPages rt input log) = Normal r /\ count r = length (items r)) /\
  (forall input,
     exists r, fst (listForms rt input log) = Normal r /\ count r = length (items r)) /\
  (forall input,
     exists r, fst (listFormSubmissions rt input log) = Normal r /\
               count r = length (items r)) /\
  (forall input,
     exists r, fst (listCustomCode rt input log) = Normal r /\
               count r = length (items r)).
Proof.
  repeat split; intros;
    (eapply tryCatch_returns with (E := fun _ => True);
     [ unfold listSitesBody, listPagesBody, listFormsBody, listFormSubmissionsBody,
         listCustomCodeBody;
       io_chain I; apply yields_ret; reflexivity
     | intros t _; reflexivity ]).
Qed.

Lemma listed_exactly {A : Type} (r : ListResult A) :
  error r = None -> exactlyOne (listed r) (listFailed r).
Proof.
  intros H. left. split; [exact H|].
  intros (_ & _ & e & He & _). congruence.
Qed.

Lemma listFailure_exactly {A : Type} fallback t :
  fallback <> "" -> described t ->
  exactlyOne (listed (@listFailure A fallback t)) (listFailed (@listFailure A fallback t)).
Proof.
  intros Hf Ht. right. split; [discriminate|].
  repeat split. eexists. split; [reflexivity|]. now apply errorMessage_nonempty.
Qed.

Lemma succeeded_exactly : exactlyOne (succeeded true None) (failed true None).
Proof. left. split; [now split|]. intros [H _]. discriminate. Qed.

Lemma failed_exactly e :
  e <> "" -> exactlyOne (succeeded false (Some e)) (failed false (Some e)).
Proof.
  intros He. right. split; [intros [H _]; discriminate|].
  split; [reflexivity|]. now exists e.
Qed.

Lemma addCustomCodeBody_yields rt input :
  transportDescribed rt ->
  yields (addCustomCodeBody rt input)
    (fun r => exactlyOne (succeeded (add_success r) (add_error r))
                         (failed (add_success r) (add_error r)))
    described.
Proof.
  intros Hrt. unfold addCustomCodeBody.
  destruct (targetIsPage _ && negb _).
  { apply yields_ret, failed_exactly. discriminate. }
  destruct (2000 <? _)%nat.
  { apply yields_ret, failed_exactly. discriminate. }
  io_chain Hrt.
  destruct (negb _).
  { apply yields_ret, failed_exactly. discriminate. }
  apply yields_bind.
  - destruct (targetIsPage _ && given _); now apply yields_callApi.
  - intros _. apply yields_ret, succeeded_exactly.
Qed.

(** C5, as amended.  On a runtime whose [fetch] and response readers reject
    only with described values (anything but an [Error] whose message is
    empty), every tool returns, from every log, a result in exactly one of
    two states: success (flag true, or a list result with no error) with no
    error field, or failure (flag false, or an empty list with count 0) with
    a non-empty error string. *)
Theorem results_succeed_or_fail rt log :
  transportDescribed rt ->
  (exists r, fst (listSites rt log) = Normal r /\ exactlyOne (listed r) (listFailed r)) /\
  (forall input,
     exists r, fst (publishSite rt input log) = Normal r /\
               exactlyOne (succeeded (pub_success r) (pub_error r))
                          (failed (pub_success r) (pub_error r))) /\
  (forall input,
     exists r, fst (listPages rt input log) = Normal r /\
               exactlyOne (listed r) (listFailed r)) /\
  (forall input,
     exists r, fst (updatePage rt input log) = Normal r /\
               exactlyOne (succeeded (upd_success r) (upd_error r))
                          (failed (upd_success r) (upd_error r))) /\
  (forall input,
     exists r, fst (listForms rt input log) = Normal r /\
               exactlyOne (listed r) (listFailed r)) /\
  (forall input,
     exists r, fst (listFormSubmissions rt input log) = Normal r /\
               exactlyOne (listed r) (listFailed r)) /\
  (forall input,
     exists r, fst (listCustomCode rt input log) = Normal r /\
               exactlyOne (listed r) (listFailed r)) /\
  (forall input,
     exists r, fst (addCustomCode rt input log) = Normal r /\
               exactlyOne (succeeded (add_success r) (add_error r))
                          (failed (add_success r) (add_error r))).
Proof.
  intros Hrt.
  repeat split; intros;
    (eapply tryCatch_returns with (E := described);
     [ first
         [ now apply addCustomCodeBody_yields
         | unfold listSitesBody, publishSiteBody, listPagesBody, updatePageBody,
             listFormsBody, listFormSubmissionsBody, listCustomCodeBody;
           io_chain Hrt; apply yields_ret;
           first [ now apply listed_exactly | apply succeeded_exactly ] ]
     | intros t Ht;
       first [ apply listFailure_exactly; [discriminate | exact Ht]
             | apply failed_exactly, errorMessage_nonempty; [discriminate | exact Ht] ] ]).
Qed.

Lemma mockApiResponse_described body text ok status :
  outcomeDescribed (mockApiResponse body text ok status).
Proof. split; intros t H; discriminate H. Qed.

Lemma mockRuntime_described queue :
  Forall outcomeDescribed queue -> transportDescribed (mockRuntime queue).
Proof.
  intros Hqueue log request. cbn. unfold mockFetch.
  destruct (queue !! length log) as [outcome|] eqn:E.
  - exact (Forall_lookup_1 _ _ _ _ Hqueue E).
  - exact (described_cannotRead JUndefined "ok").
Qed.

Lemma results_succeed_or_fail_witness :
  (exists r, fst (addCustomCode happyUpstream siteScript []) = Normal r /\
             exactlyOne (succeeded (add_success r) (add_error r))
                        (failed (add_success r) (add_error r))) /\
  (exists r, fst (publishSite applyRefused publishToSubdomain []) = Normal r /\
             exactlyOne (succeeded (pub_success r) (pub_error r))
                        (failed (pub_success r) (pub_error r))).
Proof.
  assert (Hhappy : transportDescribed happyUpstream).
  { apply mockRuntime_described. repeat constructor; apply mockApiResponse_described. }
  assert (Hrefused : transportDescribed applyRefused).
  { apply mockRuntime_described. repeat constructor; apply mockApiResponse_described. }
  split.
  - destruct (results_succeed_or_fail happyUpstream [] Hhappy)
      as (_ & _ & _ & _ & _ & _ & _ & Hadd).
    exact (Hadd siteScript).
  - destruct (results_succeed_or_fail applyRefused [] Hrefused) as (_ & Hpub & _).
    exact (Hpub publishToSubdomain).
Defined.

(** C5, as the specification states it, fails: when [fetch] rejects with an
    [Error] whose message is empty, [publishSite] returns [success: false]
    with the empty string as [error], which is neither of the two states. *)
Lemma publishSite_silent_rejection :
  fst (publishSite silentRejection publishToSubdomain []) =
    Normal {| pub_success := false; pub_publishedDomains := None; pub_error := Some "" |} /\
  ~ (exists r,
       fst (publishSite silentRejection publishToSubdomain []) = Normal r /\
       exactlyOne (succeeded (pub_success r) (pub_error r))
                  (failed (pub_success r) (pub_error r))).
Proof.
  split; [reflexivity|].
  intros (r & Hr & [[[Hs _] _] | [_ (_ & e & He & Hne)]]);
    vm_compute in Hr; injection Hr as <-; cbn in *.
  - discriminate Hs.
  - injection He as <-. now apply Hne.
Qed.

(** ** The field normalisers *)

Lemma member_singleton k (v : JsValue) : ({[ k := v ]} : gmap string JsValue).[k] = v.
Proof. unfold member. now rewrite lookup_singleton_eq. Qed.

(** C6, as amended.  Dual-key resolution returns the first truthy value,
    stringified, of the snake-case and the camel-case property, else absent:
    a value that is missing, [undefined], [null], [false], 0 or the empty
    string is passed over.  When each of the two properties is truthy if it
    is present, this is the first present value, stringified. *)
Theorem getStringField_first_truthy (obj : gmap string JsValue) (snakeCase camelCase : string) :
  (truthy obj.[snakeCase] = true ->
   getStringField obj snakeCase camelCase = Some (ToString obj.[snakeCase])) /\
  (truthy obj.[snakeCase] = false -> truthy obj.[camelCase] = true ->
   getStringField obj snakeCase camelCase = Some (ToString obj.[camelCase])) /\
  (truthy obj.[snakeCase] = false -> truthy obj.[camelCase] = false ->
   getStringField obj snakeCase camelCase = None) /\
  ((forall v, obj !! snakeCase = Some v -> truthy v = true) ->
   (forall v, obj !! camelCase = Some v -> truthy v = true) ->
   getStringField obj snakeCase camelCase =
     firstPresentStringified obj snakeCase camelCase).
Proof.
  unfold getStringField, firstPresentStringified, member.
  repeat split.
  - now intros ->.
  - now intros -> ->.
  - now intros -> ->.
  - intros Hs Hc.
    destruct (obj !! snakeCase) as [v|]; cbn.
    + now rewrite (Hs v eq_refl).
    + destruct (obj !! camelCase) as [w|]; cbn; [|reflexivity].
      now rewrite (Hc w eq_refl).
Qed.

Lemma getStringField_first_truthy_witness :
  getStringField {[ "last_published" := JStr "X" ]} "last_published" "lastPublished"
    = Some "X" /\
  getStringField {[ "lastPublished" := JStr "Y" ]} "last_published" "lastPublished"
    = Some "Y" /\
  getStringField {[ "last_published" := JStr "X"; "lastPublished" := JStr "Y" ]}
    "last_published" "lastPublished" = Some "X" /\
  getStringField ∅ "last_published" "lastPublished" = None.
Proof.
  split; [|split; [|split]].
  - destruct (getStringField_first_truthy
                {[ "last_published" := JStr "X" ]} "last_published" "lastPublished")
      as (Hsnake & _).
    exact (Hsnake eq_refl).
  - destruct (getStringField_first_truthy
                {[ "lastPublished" := JStr "Y" ]} "last_published" "lastPublished")
      as (_ & Hcamel & _).
    exact (Hcamel eq_refl eq_refl).
  - destruct (getStringField_first_truthy
                {[ "last_published" := JStr "X"; "lastPublished" := JStr "Y" ]}
                "last_published" "lastPublished")
      as (Hsnake & _).
    exact (Hsnake eq_refl).
  - destruct (getStringField_first_truthy ∅ "last_published" "lastPublished")
      as (_ & _ & Hnone & _).
    exact (Hnone eq_refl eq_refl).
Defined.

(** C6, as the specification states it, fails: with both keys present and
    the snake-case value the empty string, or 0, resolution returns the
    camel-case value, where the first present value stringified is the
    empty string, or "0". *)
Lemma getStringField_skips_falsy :
  getStringField emptySnake "last_published" "lastPublished" = Some "Y" /\
  firstPresentStringified emptySnake "last_published" "lastPublished" = Some "" /\
  getStringField zeroSnake "last_published" "lastPublished" = Some "Y" /\
  firstPresentStringified zeroSnake "last_published" "lastPublished" = Some "0".
Proof. repeat split; reflexivity. Qed.

(** C7.  An absent source gives an absent output; the source [{title: T}],
    [T] a non-empty string, gives the object with title [T] and no
    description; and every source object, were it empty, gives an object:
    the two outputs are distinct. *)
Theorem parseTitleDescription_absent_or_present (T : string) :
  T <> "" ->
  parseTitleDescription JUndefined = None /\
  parseTitleDescription JNull = None /\
  parseTitleDescription (JObj {[ "title" := JStr T ]})
    = Some {| td_title := Some T; td_description := None |} /\
  (forall props, parseTitleDescription (JObj props) <> None) /\
  parseTitleDescription (JObj ∅)
    = Some {| td_title := None; td_description := None |}.
Proof.
  intros HT. repeat split; try reflexivity; try discriminate.
  unfold parseTitleDescription. cbn [truthy ownProps].
  rewrite member_singleton. cbn [truthy ToString].
  destruct T; [congruence|]. reflexivity.
Qed.

Lemma parseTitleDescription_absent_or_present_witness :
  parseTitleDescription JUndefined = None /\
  parseTitleDescription (JObj {[ "title" := JStr "T" ]})
    = Some {| td_title := Some "T"; td_description := None |}.
Proof.
  destruct (parseTitleDescription_absent_or_present "T") as (Habsent & _ & Hpresent & _).
  - discriminate.
  - split; [exact Habsent | exact Hpresent].
Defined.

(** ** The request bodies *)

Lemma tryCatch_log {A : Type} (body : Io A) handler log :
  snd (tryCatch body handler log) = snd (body log).
Proof. unfold tryCatch. now destruct (body log) as [[a|t] log']. Qed.

(** Synchronous code after a call leaves the log as the call left it. *)
Lemma bindIo_liftIo_log {A B : Type} (c : Completion A) (k : A -> Io B) log :
  (forall a, snd (k a log) = log) -> snd (bindIo (liftIo c) k log) = log.
Proof. intros Hk. unfold bindIo, liftIo. destruct c; [apply Hk | reflexivity]. Qed.

Lemma callApi_log rt path options log :
  snd (callApi rt path options log) =
    log ++ match getApiKey rt with
           | Normal apiKey => [buildRequest apiKey path options]
           | Abrupt _ => []
           end.
Proof.
  unfold callApi. destruct (getApiKey rt); cbn [snd]; [reflexivity|].
  now rewrite app_nil_r.
Qed.

Lemma bindIo_callApi_log {B : Type} rt path options (k : JsValue -> Io B) log :
  (forall a log', snd (k a log') = log') ->
  snd (bindIo (callApi rt path options) k log) = snd (callApi rt path options log).
Proof.
  intros Hk. unfold bindIo.
  destruct (callApi rt path options log) as [[a|t] log']; [apply Hk | reflexivity].
Qed.

(** C8.  The body [updatePage] builds holds, under each of [title], [slug],
    [seo] and [openGraph], the value the caller supplied when there is one
    and no member at all when there is none, and holds no other key; with a
    title alone it is exactly [{title}].  That body is the body of the one
    request [updatePage] makes (none without a credential). *)
Theorem updatePage_body_is_what_was_supplied (input : UpdatePageInput) :
  let body := updatePageRequestBody input in
  body !! "title" = JStr <$> up_title input /\
  body !! "slug" = JStr <$> up_slug input /\
  body !! "seo" = titleDescriptionObject <$> up_seo input /\
  body !! "openGraph" = titleDescriptionObject <$> up_openGraph input /\
  (forall key,
     key <> "title" -> key <> "slug" -> key <> "seo" -> key <> "openGraph" ->
     body !! key = None) /\
  (forall title,
     up_title input = Some title -> up_slug input = None ->
     up_seo input = None -> up_openGraph input = None ->
     body = {[ "title" := JStr title ]}) /\
  (forall rt log,
     snd (updatePage rt input log) =
       log ++ match getApiKey rt with
              | Normal apiKey =>
                  [buildRequest apiKey ("/pages/" +:+ up_pageId input)
                     {| opt_method := Some PUT; opt_body := Some body;
                        opt_params := None |}]
              | Abrupt _ => []
              end).
Proof.
  cbv zeta. unfold updatePageRequestBody.
  destruct input as [pageId title slug seo openGraph]. cbn [up_pageId up_title up_slug up_seo up_openGraph].
  repeat split.
  - destruct title, slug, seo, openGraph; cbn; now simplify_map_eq.
  - destruct title, slug, seo, openGraph; cbn; now simplify_map_eq.
  - destruct title, slug, seo, openGraph; cbn; now simplify_map_eq.
  - destruct title, slug, seo, openGraph; cbn; now simplify_map_eq.
  - intros key H1 H2 H3 H4.
    destruct title, slug, seo, openGraph; cbn; now simplify_map_eq.
  - intros t -> -> -> ->. cbn. apply insert_empty.
  - intros rt log. unfold updatePage. rewrite tryCatch_log. unfold updatePageBody.
    rewrite bindIo_callApi_log; [apply callApi_log|].
    intros a log'. now apply bindIo_liftIo_log.
Qed.

Lemma updatePage_body_is_what_was_supplied_witness :
  updatePageRequestBody updateTitleOnly = {[ "title" := JStr "About Us" ]} /\
  updatePageRequestBody updateTitleOnly !! "slug" = None /\
  updatePageRequestBody updateTitleOnly !! "seo" = None /\
  updatePageRequestBody updateTitleOnly !! "openGraph" = None.
Proof.
  destruct (updatePage_body_is_what_was_supplied updateTitleOnly)
    as (_ & Hslug & Hseo & Hog & _ & Honly & _).
  split; [|split; [|split]].
  - apply (Honly "About Us"); reflexivity.
  - exact Hslug.
  - exact Hseo.
  - exact Hog.
Defined.

(** C10.  The body [publishSite] builds always holds
    [publishToWebflowSubdomain], [false] when the caller omitted the flag;
    it holds [customDomains] exactly when the caller supplied a non-empty
    array, and no other key; an empty array gives the body of an omitted
    argument.  That body is the body of the one request [publishSite] makes
    (none without a site identifier or a credential). *)
Theorem publishSite_request_body (input : PublishSiteInput) :
  let body := publishSiteRequestBody input in
  body !! "publishToWebflowSubdomain"
    = Some (JBool (default false (ps_publishToWebflowSubdomain input))) /\
  (forall customDomains,
     ps_customDomains input = Some customDomains -> customDomains <> [] ->
     body !! "customDomains" = Some (JArr (JStr <$> customDomains))) /\
  (ps_customDomains input = None \/ ps_customDomains input = Some [] ->
   body = {[ "publishToWebflowSubdomain" :=
               JBool (default false (ps_publishToWebflowSubdomain input)) ]} /\
   body !! "customDomains" = None) /\
  (forall key,
     key <> "publishToWebflowSubdomain" -> key <> "customDomains" ->
     body !! key = None) /\
  publishSiteRequestBody
    {| ps_siteId := ps_siteId input; ps_customDomains := Some [];
       ps_publishToWebflowSubdomain := ps_publishToWebflowSubdomain input |}
  = publishSiteRequestBody
      {| ps_siteId := ps_siteId input; ps_customDomains := None;
         ps_publishToWebflowSubdomain := ps_publishToWebflowSubdomain input |} /\
  (forall rt log,
     snd (publishSite rt input log) =
       log ++ match resolveSiteId rt (ps_siteId input), getApiKey rt with
              | Normal resolvedSiteId, Normal apiKey =>
                  [buildRequest apiKey ("/sites/" +:+ resolvedSiteId +:+ "/publish")
                     {| opt_method := Some POST; opt_body := Some body;
                        opt_params := None |}]
              | _, _ => []
              end).
Proof.
  cbv zeta. split; [|split; [|split; [|split; [|split]]]].
  6: {
    intros rt log. unfold publishSite. rewrite tryCatch_log. unfold publishSiteBody.
    unfold bindIo at 1. unfold liftIo at 1.
    destruct (resolveSiteId rt (ps_siteId input)) as [site|t]; cbn [snd].
    - rewrite bindIo_callApi_log; [apply callApi_log|].
      intros a log'. apply bindIo_liftIo_log. intros r.
      now apply bindIo_liftIo_log.
    - now rewrite app_nil_r. }
  all: unfold publishSiteRequestBody; destruct input as [siteId customDomains flag];
    cbn [ps_siteId ps_customDomains ps_publishToWebflowSubdomain].
  - destruct customDomains as [[|d ds]|]; cbn; now simplify_map_eq.
  - intros domains [= ->] Hne. destruct domains as [|d ds]; [congruence|].
    cbn. now simplify_map_eq.
  - intros [-> | [= ->]]; cbn; now simplify_map_eq.
  - intros key H1 H2. destruct customDomains as [[|d ds]|]; cbn; now simplify_map_eq.
  - reflexivity.
Qed.

Lemma publishSite_request_body_witness :
  publishSiteRequestBody publishToNoDomains
    = {[ "publishToWebflowSubdomain" := JBool false ]} /\
  publishSiteRequestBody publishToNoDomains !! "customDomains" = None.
Proof.
  destruct (publishSite_request_body publishToNoDomains) as (_ & _ & Hnone & _).
  apply Hnone. right. reflexivity.
Defined.

(** ** Site-identifier resolution *)

Lemma bindIo_liftIo_abrupt {A B : Type} (c : Completion A) (k : A -> Io B) t log :
  c = Abrupt t -> bindIo (liftIo c) k log = (Abrupt t, log).
Proof. now intros ->. Qed.

(** C9.  [resolveSiteId] returns the explicit site identifier when one is
    supplied (a non-empty string); otherwise (no argument, or the empty
    string) the default of the process, [WEBFLOW_SITE_ID], when that is
    non-empty; when neither is available it throws the configuration error,
    and every site-scoped tool then returns its failure with that message
    and leaves the log of requests unchanged: no request is made. *)
Theorem site_identifier_resolution (rt : Runtime) (siteId : option string) :
  (forall s, siteId = Some s -> s <> "" -> resolveSiteId rt siteId = Normal s) /\
  (given siteId = false -> getDefaultSiteId rt <> "" ->
   resolveSiteId rt siteId = Normal (getDefaultSiteId rt)) /\
  (given siteId = false -> getDefaultSiteId rt = "" ->
   resolveSiteId rt siteId = Abrupt (ErrorInstance siteIdRequired) /\
   forall log,
     (forall input, ps_siteId input = siteId ->
        publishSite rt input log =
          (Normal {| pub_success := false; pub_publishedDomains := None;
                     pub_error := Some siteIdRequired |}, log)) /\
     (forall input, in_siteId input = siteId ->
        listPages rt input log =
          (Normal {| items := []; count := 0; pagination := None;
                     error := Some siteIdRequired |}, log)) /\
     (forall input, in_siteId input = siteId ->
        listForms rt input log =
          (Normal {| items := []; count := 0; pagination := None;
                     error := Some siteIdRequired |}, log)) /\
     (forall input, lfs_siteId input = siteId ->
        listFormSubmissions rt input log =
          (Normal {| items := []; count := 0; pagination := None;
                     error := Some siteIdRequired |}, log)) /\
     (forall input, in_siteId input = siteId ->
        listCustomCode rt input log =
          (Normal {| items := []; count := 0; pagination := None;
                     error := Some siteIdRequired |}, log)) /\
     (forall input, ac_siteId input = siteId ->
        pageIdMissing input = false -> sourceTooLong input = false ->
        addCustomCode rt input log =
          (Normal {| add_success := false; add_scriptId := ""; add_appliedTo := None;
                     add_error := Some siteIdRequired |}, log))).
Proof.
  split; [|split].
  - intros s -> Hs. unfold resolveSiteId. destruct s; [congruence | reflexivity].
  - intros Hgiven Hdefault. unfold resolveSiteId.
    assert (Hres : match siteId with
                   | Some s => if nonEmpty s then s else getDefaultSiteId rt
                   | None => getDefaultSiteId rt
                   end = getDefaultSiteId rt).
    { destruct siteId as [s|]; [|reflexivity]. cbn in Hgiven. now rewrite Hgiven. }
    rewrite Hres. destruct (getDefaultSiteId rt); [congruence | reflexivity].
  - intros Hgiven Hdefault.
    assert (Hthrows : resolveSiteId rt siteId = Abrupt (ErrorInstance siteIdRequired)).
    { unfold resolveSiteId. rewrite Hdefault.
      destruct siteId as [s|]; [|reflexivity]. cbn in Hgiven. now rewrite Hgiven. }
    split; [exact Hthrows|]. intros log.
    repeat split; intros input <-.
    all: try (apply tryCatch_abrupt with (t := ErrorInstance siteIdRequired);
              now apply bindIo_liftIo_abrupt).
    intros Hpage Hlen. apply tryCatch_abrupt with (t := ErrorInstance siteIdRequired).
    unfold addCustomCodeBody. fold (pageIdMissing input) (sourceTooLong input).
    rewrite Hpage, Hlen. now apply bindIo_liftIo_abrupt.
Qed.

Lemma site_identifier_resolution_witness :
  resolveSiteId happyUpstream (Some "site-1") = Normal "site-1" /\
  resolveSiteId happyUpstream None = Normal "test-site-id" /\
  resolveSiteId noDefaultSite None = Abrupt (ErrorInstance siteIdRequired) /\
  listPages noDefaultSite
    {| in_siteId := None; in_limit := Some 10%Z; in_offset := None |} [] =
    (Normal {| items := []; count := 0; pagination := None;
               error := Some siteIdRequired |}, []).
Proof.
  destruct (site_identifier_resolution happyUpstream (Some "site-1")) as (Hexplicit & _).
  destruct (site_identifier_resolution happyUpstream None) as (_ & Hdefault & _).
  destruct (site_identifier_resolution noDefaultSite None) as (_ & _ & Hneither).
  destruct (Hneither eq_refl eq_refl) as (Hthrows & Htools).
  destruct (Htools []) as (_ & Hpages & _).
  split; [|split; [|split]].
  - apply (Hexplicit "site-1"); [reflexivity | discriminate].
  - apply Hdefault; [reflexivity | discriminate].
  - exact Hthrows.
  - now apply Hpages.
Defined.

(** ** The tests of tests/index.test.ts, replayed on the embedding *)

Example listSites_returns_sites :
  listSites oneSite [] =
    (Normal
       {| items :=
            [{| site_id := "site-1";
                site_displayName := "My Site";
                site_shortName := "my-site";
                site_lastPublished := Some "2025-01-01T00:00:00Z";
                site_lastUpdated := Some "2025-01-02T00:00:00Z";
                site_previewUrl := Some "https://preview.webflow.com/site-1";
                site_timeZone := Some "America/New_York";
                site_designerUrl := "https://my-site.design.webflow.com";
                site_settingsUrl := "https://webflow.com/dashboard/sites/my-site/general";
                site_customDomains :=
                  Some [{| domain_id := "dom-1"; domain_url := "example.com" |}] |}];
          count := 1;
          pagination := None;
          error := None |},
     [buildRequest "test-api-key" "/sites" noOptions]).
Proof. reflexivity. Qed.

Example listPages_not_found :
  exists e,
    fst (listPages notFound
           {| in_siteId := Some "bad-id"; in_limit := None; in_offset := None |} []) =
      Normal {| items := []; count := 0; pagination := None; error := Some e |} /\
    contains "404" e.
Proof.
  eexists. split; [reflexivity|].
  exists "Webflow API error ",
         (": {" +:+ dquote +:+ "message" +:+ dquote +:+ ":" +:+ dquote +:+ "Not Found"
          +:+ dquote +:+ "}").
  reflexivity.
Qed.

Example publishSite_omits_customDomains :
  req_body <$> snd (publishSite happyUpstream publishToSubdomain []) =
    [Some {[ "publishToWebflowSubdomain" := JBool true ]}].
Proof. reflexivity. Qed.

Example addCustomCode_page_script :
  fst (addCustomCode happyUpstream pageScript []) =
    Normal {| add_success := true; add_scriptId := "script-123";
              add_appliedTo := Some "page:page-1"; add_error := None |} /\
  req_url <$> snd (addCustomCode happyUpstream pageScript []) =
    ["https://api.webflow.com/v2/sites/site-1/registered_scripts/inline";
     "https://api.webflow.com/v2/pages/page-1/custom_code"].
Proof. split; reflexivity. Qed.

(** ** Running a tool up to its first request *)

Lemma bindIo_liftIo_normal {A B : Type} (c : Completion A) (k : A -> Io B) a log :
  c = Normal a -> bindIo (liftIo c) k log = k a log.
Proof. now intros ->. Qed.

Lemma bindIo_callApi_normal {B : Type} rt path options (k : JsValue -> Io B) log apiKey v :
  getApiKey rt = Normal apiKey ->
  settle (fetch rt log (buildRequest apiKey path options)) = Normal v ->
  bindIo (callApi rt path options) k log = k v (log ++ [buildRequest apiKey path options]).
Proof.
  intros Hkey Hv. unfold bindIo. rewrite (callApi_with_key _ _ _ _ _ Hkey). now rewrite Hv.
Qed.

Lemma bindIo_callApi_abrupt {B : Type} rt path options (k : JsValue -> Io B) log apiKey t :
  getApiKey rt = Normal apiKey ->
  settle (fetch rt log (buildRequest apiKey path options)) = Abrupt t ->
  bindIo (callApi rt path options) k log =
    (Abrupt t, log ++ [buildRequest apiKey path options]).
Proof.
  intros Hkey Ht. unfold bindIo. rewrite (callApi_with_key _ _ _ _ _ Hkey). now rewrite Ht.
Qed.

Lemma bindIo_callApi_without_key {B : Type} rt path options (k : JsValue -> Io B) log t :
  getApiKey rt = Abrupt t ->
  bindIo (callApi rt path options) k log = (Abrupt t, log).
Proof. intros Hkey. unfold bindIo, callApi. now rewrite Hkey. Qed.

Lemma passesPreconditions_addCustomCode input :
  passesPreconditions (CallAddCustomCode input) = true ->
  pageIdMissing input = false /\ sourceTooLong input = false.
Proof.
  unfold passesPreconditions.
  destruct (pageIdMissing input), (sourceTooLong input); cbn [negb andb]; intros H;
    try discriminate H; now split.
Qed.

(** Unfolds a tool down to the call of [callApi]: the preconditions of
    [addCustomCode] are passed and the site identifier is resolved. *)
Ltac reach_first_call Hpre Hsite :=
  match goal with
  | |- context [addCustomCodeBody _ ?input] =>
      let Hpage := fresh "Hpage" in
      let Hlen := fresh "Hlen" in
      destruct (passesPreconditions_addCustomCode input Hpre) as [Hpage Hlen];
      unfold addCustomCodeBody; fold (pageIdMissing input) (sourceTooLong input);
      rewrite Hpage, Hlen
  | |- _ =>
      unfold listSitesBody, publishSiteBody, listPagesBody, updatePageBody, listFormsBody,
        listFormSubmissionsBody, listCustomCodeBody
  end;
  try rewrite (bindIo_liftIo_normal _ _ _ _ (Hsite _ eq_refl)).

Ltac open_execute :=
  cbn [execute toolOf failureOf fallbackOf firstRequest];
  unfold listSites, publishSite, listPages, updatePage, listForms, listFormSubmissions,
    listCustomCode, addCustomCode, listFailure, registerRequest.

Lemma execute_first_call_abrupt rt call log apiKey site t :
  passesPreconditions call = true ->
  worksOn rt call site ->
  getApiKey rt = Normal apiKey ->
  settle (fetch rt log (firstRequest apiKey site call)) = Abrupt t ->
  execute rt call log =
    (Normal (failureOf (toolOf call) (errorMessage (fallbackOf (toolOf call)) t)),
     log ++ [firstRequest apiKey site call]).
Proof.
  intros Hpre Hsite Hkey Ht. unfold worksOn in Hsite.
  destruct call; cbn [siteArgument firstRequest] in Hsite, Ht; unfold registerRequest in Ht;
    open_execute;
    (eapply tryCatch_abrupt with (t := t)); reach_first_call Hpre Hsite;
    now apply bindIo_callApi_abrupt.
Qed.

Lemma execute_without_key rt call log site t :
  passesPreconditions call = true ->
  worksOn rt call site ->
  getApiKey rt = Abrupt t ->
  execute rt call log =
    (Normal (failureOf (toolOf call) (errorMessage (fallbackOf (toolOf call)) t)), log).
Proof.
  intros Hpre Hsite Hkey. unfold worksOn in Hsite.
  destruct call; cbn [siteArgument] in Hsite; open_execute;
    (eapply tryCatch_abrupt with (t := t)); reach_first_call Hpre Hsite;
    now apply bindIo_callApi_without_key.
Qed.

(** ** Failures before and at the first request *)

(** X1.  Without a credential ([WEBFLOW_API_KEY] unset or empty) every tool
    that got as far as its first call returns its failure with the message
    "WEBFLOW_API_KEY environment variable is required", and makes no
    request. *)
Theorem execute_requires_credential rt call log site :
  passesPreconditions call = true ->
  worksOn rt call site ->
  given (env rt !! "WEBFLOW_API_KEY") = false ->
  execute rt call log =
    (Normal (failureOf (toolOf call) "WEBFLOW_API_KEY environment variable is required"),
     log).
Proof.
  intros Hpre Hsite Hkey.
  apply (execute_without_key rt call log site
           (ErrorInstance "WEBFLOW_API_KEY environment variable is required") Hpre Hsite).
  unfold getApiKey. destruct (env rt !! "WEBFLOW_API_KEY") as [k|]; [|reflexivity].
  cbn in Hkey. now rewrite Hkey.
Qed.

Lemma execute_requires_credential_witness :
  listPages noCredential allPages [] =
    (Normal {| items := []; count := 0; pagination := None;
               error := Some "WEBFLOW_API_KEY environment variable is required" |}, []) /\
  addCustomCode noCredential siteScript [] =
    (Normal (addFailure "WEBFLOW_API_KEY environment variable is required"), []).
Proof.
  split.
  - apply (execute_requires_credential noCredential (CallListPages allPages) []
             "test-site-id"); [reflexivity | | reflexivity].
    intros siteId [= <-]. reflexivity.
  - apply (execute_requires_credential noCredential (CallAddCustomCode siteScript) []
             "site-1"); [reflexivity | | reflexivity].
    intros siteId [= <-]. reflexivity.
Defined.

(** X2.  When the first request of a tool is rejected by [fetch], or is
    answered with a success status and a body that [json()] cannot read, the
    tool returns its failure with the message of the thrown [Error], or with
    its own fixed message when the thrown value is not an [Error]; the
    request was made once and no other follows. *)
Theorem execute_reports_transport_failure rt call log apiKey site t :
  passesPreconditions call = true ->
  worksOn rt call site ->
  getApiKey rt = Normal apiKey ->
  (fetch rt log (firstRequest apiKey site call) = Rejects t \/
   exists response,
     fetch rt log (firstRequest apiKey site call) = Resolves response /\
     resp_ok response = true /\ resp_json response = Abrupt t) ->
  execute rt call log =
    (Normal (failureOf (toolOf call) (errorMessage (fallbackOf (toolOf call)) t)),
     log ++ [firstRequest apiKey site call]).
Proof.
  intros Hpre Hsite Hkey Hfetch.
  apply execute_first_call_abrupt; try assumption.
  destruct Hfetch as [-> | (response & -> & Hok & Hjson)]; [reflexivity|].
  cbn [settle]. now rewrite Hok.
Qed.

Lemma execute_reports_transport_failure_witness :
  listSites rejectsWithValue [] =
    (Normal {| items := []; count := 0; pagination := None;
               error := Some "Failed to list sites" |},
     [buildRequest "test-api-key" "/sites" noOptions]) /\
  publishSite silentRejection publishToSubdomain [] =
    (Normal {| pub_success := false; pub_publishedDomains := None; pub_error := Some "" |},
     [firstRequest "test-api-key" "site-1" (CallPublishSite publishToSubdomain)]).
Proof.
  split.
  - apply (execute_reports_transport_failure rejectsWithValue CallListSites []
             "test-api-key" "" NotAnError); try reflexivity.
    + intros siteId [=].
    + left. reflexivity.
  - apply (execute_reports_transport_failure silentRejection
             (CallPublishSite publishToSubdomain) [] "test-api-key" "site-1"
             (ErrorInstance "")); try reflexivity.
    + intros siteId [= <-]. reflexivity.
    + left. reflexivity.
Defined.

(** X3.  When the first request of a tool is answered with a status that is
    not a success, the tool returns its failure with the error string
    "Webflow API error <status>: <text>", [text] being the body of the
    response as received; the request was made once and no other follows. *)
Theorem execute_reports_upstream_status rt call log apiKey site response text :
  passesPreconditions call = true ->
  worksOn rt call site ->
  getApiKey rt = Normal apiKey ->
  fetch rt log (firstRequest apiKey site call) = Resolves response ->
  resp_ok response = false ->
  resp_text response = Normal text ->
  execute rt call log =
    (Normal (failureOf (toolOf call)
               ("Webflow API error " +:+ pretty (resp_status response) +:+ ": " +:+ text)),
     log ++ [firstRequest apiKey site call]).
Proof.
  intros Hpre Hsite Hkey Hfetch Hok Htext.
  apply (execute_first_call_abrupt rt call log apiKey site
           (ErrorInstance
              ("Webflow API error " +:+ pretty (resp_status response) +:+ ": " +:+ text)));
    try assumption.
  rewrite Hfetch. cbn [settle]. now rewrite Hok, Htext.
Qed.

Lemma execute_reports_upstream_status_witness :
  exists e,
    listPages notFound pagesOfBadSite [] =
      (Normal {| items := []; count := 0; pagination := None; error := Some e |},
       [firstRequest "test-api-key" "bad-id" (CallListPages pagesOfBadSite)]) /\
    contains "404" e.
Proof.
  eexists. split.
  - apply (execute_reports_upstream_status notFound (CallListPages pagesOfBadSite) []
             "test-api-key" "bad-id"
             {| resp_ok := false; resp_status := 404;
                resp_text := Normal ("{" +:+ dquote +:+ "message" +:+ dquote +:+ ":"
                                     +:+ dquote +:+ "Not Found" +:+ dquote +:+ "}");
                resp_json := Normal (JObj {[ "message" := JStr "Not Found" ]}) |});
      try reflexivity.
    intros siteId [= <-]. reflexivity.
  - exists "Webflow API error ",
           (": {" +:+ dquote +:+ "message" +:+ dquote +:+ ":" +:+ dquote +:+ "Not Found"
            +:+ dquote +:+ "}").
    reflexivity.
Defined.

(** ** The requests a tool makes *)

Lemma sends_ret {A : Type} (a : A) P : sends (retIo a) 0 P.
Proof. intros log. exists []. cbn. rewrite app_nil_r. repeat split; [lia | constructor]. Qed.

Lemma sends_lift {A : Type} (c : Completion A) P : sends (liftIo c) 0 P.
Proof. intros log. exists []. cbn. rewrite app_nil_r. repeat split; [lia | constructor]. Qed.

Lemma sends_bind {A B : Type} (m : Io A) (k : A -> Io B) n1 n2 P :
  sends m n1 P -> (forall a, sends (k a) n2 P) -> sends (bindIo m k) (n1 + n2) P.
Proof.
  intros Hm Hk log. unfold bindIo.
  destruct (Hm log) as (added1 & E1 & L1 & F1).
  destruct (m log) as [[a|t] log1]; cbn [snd] in E1; subst log1.
  - destruct (Hk a (log ++ added1)) as (added2 & E2 & L2 & F2).
    exists (added1 ++ added2). rewrite E2, app_assoc. repeat split.
    + rewrite length_app. lia.
    + now apply Forall_app.
  - exists added1. repeat split; [lia | exact F1].
Qed.

Lemma sends_callApi rt path options (P : Request -> Prop) :
  (forall apiKey, getApiKey rt = Normal apiKey -> P (buildRequest apiKey path options)) ->
  sends (callApi rt path options) 1 P.
Proof.
  intros HP log. unfold callApi.
  destruct (getApiKey rt) as [apiKey|t] eqn:Hkey; cbn [snd].
  - exists [buildRequest apiKey path options]. repeat split; [cbn; lia|].
    constructor; [now apply HP | constructor].
  - exists []. rewrite app_nil_r. repeat split; [cbn; lia | constructor].
Qed.

Lemma sends_tryCatch {A : Type} (body : Io A) handler n P :
  sends body n P -> sends (tryCatch body handler) n P.
Proof. intros H log. rewrite tryCatch_log. apply H. Qed.

Lemma sends_weaken {A : Type} (m : Io A) n n' P :
  sends m n P -> n <= n' -> sends m n' P.
Proof.
  intros H Hn log. destruct (H log) as (added & E & L & F).
  exists added. repeat split; [exact E | lia | exact F].
Qed.



Lemma buildRequest_readOnly apiKey path params :
  readOnlyRequest
    (buildRequest apiKey path
       {| opt_method := None; opt_body := None; opt_params := params |}).
Proof.
  repeat split. intros value Hin. cbn in Hin.
  apply list_elem_of_singleton in Hin. discriminate Hin.
Qed.

Lemma buildRequest_write apiKey path method body :
  method = POST \/ method = PUT ->
  writeRequest
    (buildRequest apiKey path
       {| opt_method := Some method; opt_body := Some body; opt_params := None |}).
Proof.
  intros Hm. repeat split; [exact Hm | now exists body |].
  cbn. apply list_elem_of_further, list_elem_of_here.
Qed.

(** Walks the body of an executor, leaving one goal for each request it may
    build. *)
Ltac sends_chain :=
  repeat first
    [ apply sends_ret
    | apply sends_lift
    | apply sends_callApi; intros ? ?
    | eapply sends_bind; [|intros ?] ].

Lemma addCustomCodeBody_sends rt input (P : Request -> Prop) :
  (forall apiKey path method body,
     getApiKey rt = Normal apiKey -> method = POST \/ method = PUT ->
     P (buildRequest apiKey path
          {| opt_method := Some method; opt_body := Some body; opt_params := None |})) ->
  sends (addCustomCodeBody rt input) 2 P.
Proof.
  intros HP. unfold addCustomCodeBody.
  destruct (targetIsPage _ && negb _).
  { eapply sends_weaken; [apply sends_ret | lia]. }
  destruct (2000 <? _)%nat.
  { eapply sends_weaken; [apply sends_ret | lia]. }
  eapply sends_weaken.
  - eapply sends_bind; [apply sends_lift | intros site].
    eapply sends_bind; [apply sends_callApi; intros k Hk; apply HP; auto | intros registered].
    eapply sends_bind; [apply sends_lift | intros r].
    destruct (negb _).
    + eapply sends_weaken with (n := 0); [apply sends_ret | apply Nat.le_0_l].
    + eapply sends_bind; [|intros applied; apply sends_ret].
      destruct (targetIsPage _ && given _); apply sends_callApi; intros k Hk; apply HP; auto.
  - cbn. lia.
Qed.

Lemma execute_sends rt call (P : Request -> Prop) :
  (forall apiKey, getApiKey rt = Normal apiKey ->
     forall path options,
       (needsApproval (toolOf call) = false ->
        opt_method options = None /\ opt_body options = None) ->
       (needsApproval (toolOf call) = true ->
        (opt_method options = Some POST \/ opt_method options = Some PUT) /\
        is_Some (opt_body options) /\ opt_params options = None) ->
       P (buildRequest apiKey path options)) ->
  sends (execute rt call) (maxRequests (toolOf call)) P.
Proof.
  intros HP. destruct call; cbn [execute toolOf maxRequests needsApproval] in *.
  8: { apply sends_tryCatch, addCustomCodeBody_sends.
       intros apiKey path method body Hkey Hm.
       apply (HP _ Hkey); [discriminate|]. intros _. cbn.
       repeat split; [destruct Hm as [-> | ->]; auto | now exists body]. }
  all: unfold listSites, publishSite, listPages, updatePage, listForms,
         listFormSubmissions, listCustomCode;
       apply sends_tryCatch;
       unfold listSitesBody, publishSiteBody, listPagesBody, updatePageBody,
         listFormsBody, listFormSubmissionsBody, listCustomCodeBody;
       (eapply sends_weaken; [sends_chain | cbn; lia]).
  all: match goal with
       | H : getApiKey _ = Normal _ |- _ => apply (HP _ H)
       end;
       first [ intros _; cbn; repeat split; eauto; fail
             | discriminate ].
Qed.


(** X5.  A tool that does not require approval ([listSites], [listPages],
    [listForms], [listFormSubmissions], [listCustomCode]) only reads: for
    every input and runtime it makes at most one request, a [GET] without
    body and without content type. *)
Theorem tools_without_approval_only_read rt call :
  needsApproval (toolOf call) = false ->
  sends (execute rt call) 1 readOnlyRequest.
Proof.
  intros Hfree.
  assert (Hmax : maxRequests (toolOf call) = 1) by now destruct call.
  rewrite <- Hmax. apply execute_sends.
  intros apiKey Hkey path [method body params] Hread _.
  destruct (Hread Hfree) as [Hm Hb]. cbn in Hm, Hb. subst method body.
  apply buildRequest_readOnly.
Qed.

Lemma tools_without_approval_only_read_witness :
  sends (listFormSubmissions happyUpstream
           {| lfs_siteId := None; lfs_elementId := Some "elem-1";
              lfs_limit := Some 25%Z; lfs_offset := None |}) 1 readOnlyRequest.
Proof.
  apply (tools_without_approval_only_read happyUpstream
           (CallListFormSubmissions
              {| lfs_siteId := None; lfs_elementId := Some "elem-1";
                 lfs_limit := Some 25%Z; lfs_offset := None |})).
  reflexivity.
Defined.

(** X6.  A tool that requires approval ([publishSite], [updatePage],
    [addCustomCode]) makes only requests that write: [POST] or [PUT], with
    a JSON body and the JSON content type. *)
Theorem tools_with_approval_only_write rt call :
  needsApproval (toolOf call) = true ->
  sends (execute rt call) (maxRequests (toolOf call)) writeRequest.
Proof.
  intros Hgated. apply execute_sends.
  intros apiKey Hkey path [method body params] _ Hwrite.
  destruct (Hwrite Hgated) as (Hm & [b Hb] & Hp). cbn in Hm, Hb, Hp. subst body params.
  destruct method as [method|]; [|destruct Hm; discriminate].
  apply buildRequest_write. destruct Hm as [[= ->] | [= ->]]; auto.
Qed.

Lemma tools_with_approval_only_write_witness :
  sends (addCustomCode happyUpstream pageScript) 2 writeRequest.
Proof.
  apply (tools_with_approval_only_write happyUpstream (CallAddCustomCode pageScript)).
  reflexivity.
Defined.

(** X7.  The Webflow tools that [LeadResponseAgent] registers ([listSites],
    [listForms], [listFormSubmissions]) require no approval, and a call of
    any of them makes at most one request, a [GET] without body: the agent
    cannot publish, update a page or add code. *)
Theorem leadResponseAgent_only_reads name tool :
  name ∈ leadResponseAgentTools ->
  webflowTool name = Some tool ->
  needsApproval tool = false /\
  forall rt call, toolOf call = tool -> sends (execute rt call) 1 readOnlyRequest.
Proof.
  intros Hin Htool.
  assert (Hfree : needsApproval tool = false).
  { unfold leadResponseAgentTools in Hin.
    repeat (apply elem_of_cons in Hin; destruct Hin as [-> | Hin]);
      [..| now apply elem_of_nil in Hin];
      vm_compute in Htool; first [discriminate Htool | now injection Htool as <-]. }
  split; [exact Hfree|]. intros rt call <-.
  assert (Hmax : maxRequests (toolOf call) = 1) by now destruct call.
  rewrite <- Hmax. apply execute_sends.
  intros apiKey Hkey path [method body params] Hread _.
  destruct (Hread Hfree) as [Hm Hb]. cbn in Hm, Hb. subst method body.
  apply buildRequest_readOnly.
Qed.

Lemma leadResponseAgent_only_reads_witness :
  needsApproval ListForms = false /\
  sends (listForms happyUpstream allPages) 1 readOnlyRequest.
Proof.
  destruct (leadResponseAgent_only_reads "listForms" ListForms) as [Hfree Hreads].
  - apply list_elem_of_further, list_elem_of_here.
  - reflexivity.
  - split; [exact Hfree|]. exact (Hreads happyUpstream (CallListForms allPages) eq_refl).
Defined.

(** ** addCustomCode: the requests of the workflow *)

Lemma addCustomCode_log rt input log :
  snd (addCustomCode rt input log) = log ++ addCustomCodeRequests rt input log.
Proof.
  unfold addCustomCode. rewrite tryCatch_log.
  unfold addCustomCodeBody, addCustomCodeRequests.
  fold (pageIdMissing input) (sourceTooLong input).
  destruct (pageIdMissing input); [cbn; now rewrite app_nil_r|].
  destruct (sourceTooLong input); [cbn; now rewrite app_nil_r|].
  cbn [orb].
  destruct (resolveSiteId rt (ac_siteId input)) as [site|t] eqn:Hsite.
  2: { cbn. now rewrite app_nil_r. }
  rewrite (bindIo_liftIo_normal _ _ site log eq_refl).
  destruct (getApiKey rt) as [apiKey|t] eqn:Hkey.
  2: { rewrite (bindIo_callApi_without_key _ _ _ _ _ _ Hkey). cbn. now rewrite app_nil_r. }
  unfold registerRequest.
  destruct (settle (fetch rt log (buildRequest apiKey _ _))) as [registered|t] eqn:Hreg.
  2: { now rewrite (bindIo_callApi_abrupt _ _ _ _ _ _ _ Hkey Hreg). }
  rewrite (bindIo_callApi_normal _ _ _ _ _ _ _ Hkey Hreg).
  cbn [bindC]. unfold scriptIdOf.
  destruct (properties registered "id") as [r|t]; [|reflexivity].
  rewrite (bindIo_liftIo_normal _ _ r _ eq_refl). cbv zeta. cbn [bindC].
  destruct (nonEmpty (ToString (r.["id"] ?? JStr ""))); cbn [negb]; [|reflexivity].
  unfold applyRequest, applyPath.
  destruct (targetIsPage (ac_target input) && given (ac_pageId input));
    (rewrite bindIo_callApi_log; [|intros; reflexivity]);
    rewrite callApi_log, Hkey, <- app_assoc; reflexivity.
Qed.

(** X8.  An invocation of [addCustomCode] adds to the log either nothing,
    or the registration alone, or the registration followed by the
    application of the script identifier it returned, which is then
    non-empty: no script is applied that was not registered by the same
    invocation, and no third request (retry, rollback) is made. *)
Theorem addCustomCode_request_sequences rt input log :
  exists added,
    snd (addCustomCode rt input log) = log ++ added /\
    (added = [] \/
     exists apiKey site,
       getApiKey rt = Normal apiKey /\
       resolveSiteId rt (ac_siteId input) = Normal site /\
       (added = [registerRequest apiKey site input] \/
        exists registered scriptId,
          settle (fetch rt log (registerRequest apiKey site input)) = Normal registered /\
          scriptIdOf registered = Normal scriptId /\
          nonEmpty scriptId = true /\
          added = [registerRequest apiKey site input;
                   applyRequest apiKey site scriptId input])).
Proof.
  exists (addCustomCodeRequests rt input log). split; [apply addCustomCode_log|].
  unfold addCustomCodeRequests.
  destruct (pageIdMissing input || sourceTooLong input); [now left|].
  destruct (resolveSiteId rt (ac_siteId input)) as [site|t]; [|now left].
  destruct (getApiKey rt) as [apiKey|t]; [|now left].
  right. exists apiKey, site. do 2 (split; [reflexivity|]).
  destruct (settle (fetch rt log (registerRequest apiKey site input)))
    as [registered|t]; cbn [bindC]; [|now left].
  destruct (scriptIdOf registered) as [scriptId|t] eqn:Hid; [|now left].
  destruct (nonEmpty scriptId) eqn:Hne; [|now left].
  right. now exists registered, scriptId.
Qed.

(** X9.  When the registration call succeeds but its response carries no
    usable script identifier ([id] missing, [null] or the empty string),
    [addCustomCode] returns the failure "Failed to register script: no
    script ID returned" after that one request: nothing is applied. *)
Theorem addCustomCode_without_script_id rt input log apiKey site registered :
  pageIdMissing input = false ->
  sourceTooLong input = false ->
  getApiKey rt = Normal apiKey ->
  resolveSiteId rt (ac_siteId input) = Normal site ->
  settle (fetch rt log (registerRequest apiKey site input)) = Normal registered ->
  nullish registered = false ->
  nonEmpty (ToString ((ownProps registered).["id"] ?? JStr "")) = false ->
  addCustomCode rt input log =
    (Normal (addFailure "Failed to register script: no script ID returned"),
     log ++ [registerRequest apiKey site input]).
Proof.
  intros Hpage Hlen Hkey Hsite Hreg Hobj Hid.
  apply tryCatch_normal. unfold addCustomCodeBody.
  fold (pageIdMissing input) (sourceTooLong input). rewrite Hpage, Hlen.
  rewrite (bindIo_liftIo_normal _ _ _ _ Hsite).
  unfold registerRequest in Hreg.
  rewrite (bindIo_callApi_normal _ _ _ _ _ _ _ Hkey Hreg).
  assert (Hprops : properties registered "id" = Normal (ownProps registered))
    by now destruct registered.
  rewrite (bindIo_liftIo_normal _ _ _ _ Hprops). cbv zeta. now rewrite Hid.
Qed.

Lemma addCustomCode_without_script_id_witness :
  addCustomCode registrationWithoutId siteScript [] =
    (Normal (addFailure "Failed to register script: no script ID returned"),
     [registerRequest "test-api-key" "site-1" siteScript]).
Proof.
  apply (addCustomCode_without_script_id registrationWithoutId siteScript []
           "test-api-key" "site-1" (JObj ∅));
    reflexivity.
Defined.

(** X10.  The limit of 2000 characters is inclusive: with a source of at
    most 2000 characters, a page identifier when the target is a page, a
    credential and a site identifier, [addCustomCode] makes the
    registration request. *)
Theorem addCustomCode_registers_up_to_the_limit rt input log apiKey site :
  pageIdMissing input = false ->
  (String.length (ac_sourceCode input) <= 2000)%nat ->
  getApiKey rt = Normal apiKey ->
  resolveSiteId rt (ac_siteId input) = Normal site ->
  exists rest,
    snd (addCustomCode rt input log) = log ++ registerRequest apiKey site input :: rest.
Proof.
  intros Hpage Hlen Hkey Hsite.
  rewrite addCustomCode_log. unfold addCustomCodeRequests.
  assert (Hlong : sourceTooLong input = false).
  { unfold sourceTooLong. apply Nat.ltb_ge. exact Hlen. }
  rewrite Hpage, Hlong, Hsite, Hkey. cbn [orb]. eexists. reflexivity.
Qed.

Lemma addCustomCode_registers_up_to_the_limit_witness :
  String.length (ac_sourceCode fullScript) = 2000 /\
  exists rest,
    snd (addCustomCode happyUpstream fullScript []) =
      registerRequest "test-api-key" "site-1" fullScript :: rest.
Proof.
  split; [reflexivity|].
  apply (addCustomCode_registers_up_to_the_limit happyUpstream fullScript []
           "test-api-key" "site-1"); [reflexivity | vm_compute; lia | reflexivity..].
Defined.

(** X11.  With the target "site" the [pageId] argument plays no part: the
    result and the requests are the same whatever [pageId] is given, and the
    script is applied to the site. *)
Theorem addCustomCode_site_target_ignores_pageId rt input log pageId :
  ac_target input = TargetSite ->
  addCustomCode rt input log =
    addCustomCode rt
      {| ac_siteId := ac_siteId input; ac_target := ac_target input;
         ac_pageId := pageId; ac_sourceCode := ac_sourceCode input;
         ac_displayName := ac_displayName input; ac_version := ac_version input;
         ac_location := ac_location input |} log.
Proof.
  destruct input as [siteId target p sourceCode displayName version location].
  cbn. intros ->. reflexivity.
Qed.

Lemma addCustomCode_site_target_ignores_pageId_witness :
  addCustomCode happyUpstream siteScript [] =
    addCustomCode happyUpstream siteScriptWithPageId [].
Proof.
  apply (addCustomCode_site_target_ignores_pageId happyUpstream siteScript []
           (Some "page-1")).
  reflexivity.
Defined.

(** ** What the tools make of a successful response *)

Lemma properties_not_nullish v key :
  nullish v = false -> properties v key = Normal (ownProps v).
Proof. now destruct v. Qed.


Lemma mapC_abrupt {A B : Type} (f : A -> Completion B) l x :
  x ∈ l -> (exists t, f x = Abrupt t) -> exists t, mapC f l = Abrupt t.
Proof.
  intros Hin Hx. induction l as [|y l IH]; [now apply elem_of_nil in Hin|].
  cbn [mapC]. destruct (f y) as [b|t] eqn:Hy; [|now exists t].
  apply elem_of_cons in Hin. destruct Hin as [-> | Hin].
  - destruct Hx as [t Ht]. congruence.
  - destruct (IH Hin) as [t Ht]. exists t. cbn [bindC]. now rewrite Ht.
Qed.




Lemma decoders_throw_on_nullish x :
  nullish x = true ->
  (exists t, siteOf x = Abrupt t) /\ (exists t, pageOf x = Abrupt t) /\
  (exists t, formOf x = Abrupt t) /\ (exists t, submissionOf x = Abrupt t) /\
  (exists t, blockOf x = Abrupt t).
Proof. destruct x; try discriminate; intros _; repeat split; eexists; reflexivity. Qed.

(** X13.  A list tool returns all of the upstream list or none of it: when
    one element of the list is [null] (or [undefined]) the tool returns its
    failure, an empty list with count 0 and an error string, and not the
    elements that could be read. *)
Theorem list_tool_all_or_nothing rt call log apiKey site response elements x :
  needsApproval (toolOf call) = false ->
  worksOn rt call site ->
  getApiKey rt = Normal apiKey ->
  settle (fetch rt log (firstRequest apiKey site call)) = Normal response ->
  nullish response = false ->
  (ownProps response).[listKey (toolOf call)] = JArr elements ->
  x ∈ elements ->
  nullish x = true ->
  exists e,
    execute rt call log =
      (Normal (failureOf (toolOf call) e), log ++ [firstRequest apiKey site call]).
Proof.
  intros Hfree Hsite Hkey Hresp Hobj Harr Hin Hx. unfold worksOn in Hsite.
  destruct (decoders_throw_on_nullish x Hx) as (Hs & Hp & Hf & Hsub & Hb).
  destruct call; try discriminate Hfree;
    cbn [siteArgument firstRequest toolOf listKey] in Hsite, Hresp, Harr;
    open_execute.
  - destruct (mapC_abrupt siteOf elements x Hin Hs) as [t Ht].
    exists (errorMessage "Failed to list sites" t).
    apply tryCatch_abrupt with (t := t). reach_first_call I Hsite.
    rewrite (bindIo_callApi_normal _ _ _ _ _ _ _ Hkey Hresp).
    rewrite (bindIo_liftIo_normal _ _ _ _ (properties_not_nullish _ _ Hobj)).
    rewrite Harr. now apply bindIo_liftIo_abrupt.
  - destruct (mapC_abrupt pageOf elements x Hin Hp) as [t Ht].
    exists (errorMessage "Failed to list pages" t).
    apply tryCatch_abrupt with (t := t). reach_first_call I Hsite.
    rewrite (bindIo_callApi_normal _ _ _ _ _ _ _ Hkey Hresp).
    rewrite (bindIo_liftIo_normal _ _ _ _ (properties_not_nullish _ _ Hobj)).
    rewrite Harr. now apply bindIo_liftIo_abrupt.
  - destruct (mapC_abrupt formOf elements x Hin Hf) as [t Ht].
    exists (errorMessage "Failed to list forms" t).
    apply tryCatch_abrupt with (t := t). reach_first_call I Hsite.
    rewrite (bindIo_callApi_normal _ _ _ _ _ _ _ Hkey Hresp).
    rewrite (bindIo_liftIo_normal _ _ _ _ (properties_not_nullish _ _ Hobj)).
    rewrite Harr. now apply bindIo_liftIo_abrupt.
  - destruct (mapC_abrupt submissionOf elements x Hin Hsub) as [t Ht].
    exists (errorMessage "Failed to list form submissions" t).
    apply tryCatch_abrupt with (t := t). reach_first_call I Hsite.
    rewrite (bindIo_callApi_normal _ _ _ _ _ _ _ Hkey Hresp).
    rewrite (bindIo_liftIo_normal _ _ _ _ (properties_not_nullish _ _ Hobj)).
    rewrite Harr. now apply bindIo_liftIo_abrupt.
  - destruct (mapC_abrupt blockOf elements x Hin Hb) as [t Ht].
    exists (errorMessage "Failed to list custom code" t).
    apply tryCatch_abrupt with (t := t). reach_first_call I Hsite.
    rewrite (bindIo_callApi_normal _ _ _ _ _ _ _ Hkey Hresp).
    rewrite (bindIo_liftIo_normal _ _ _ _ (properties_not_nullish _ _ Hobj)).
    rewrite Harr. now apply bindIo_liftIo_abrupt.
Qed.

Lemma list_tool_all_or_nothing_witness :
  exists e,
    listPages pageAndNull allPages [] =
      (Normal {| items := []; count := 0; pagination := None; error := Some e |},
       [firstRequest "test-api-key" "test-site-id" (CallListPages allPages)]).
Proof.
  apply (list_tool_all_or_nothing pageAndNull (CallListPages allPages) []
           "test-api-key" "test-site-id"
           (JObj {[ "pages" := JArr [homePage; JNull] ]}) [homePage; JNull] JNull);
    try reflexivity.
  - intros siteId [= <-]. reflexivity.
  - apply list_elem_of_further, list_elem_of_here.
Defined.









(** ** The helpers of src/lib/utils.ts and src/lib/api.ts *)




(** X18.  The hint appended to the tool descriptions names the site that a
    call without [siteId] really uses: when such a call resolves to a site,
    the hint is " If not provided, defaults to the configured site: <that
    site>."; when it does not resolve, the hint is empty and the description
    of the [siteId] parameter tells the model to use [listSites]. *)
Theorem siteIdDescription_names_the_default rt :
  (forall site,
     resolveSiteId rt None = Normal site ->
     siteIdDescription rt =
       " If not provided, defaults to the configured site: " +:+ site +:+ "." /\
     siteIdParameterDescription rt =
       "The ID of the site. If not provided, defaults to the configured site: "
       +:+ site +:+ ".") /\
  (forall t,
     resolveSiteId rt None = Abrupt t ->
     siteIdDescription rt = "" /\
     siteIdParameterDescription rt =
       "The ID of the site. Use listSites to find available site IDs. Do NOT guess or fabricate site IDs.").
Proof.
  unfold resolveSiteId, siteIdParameterDescription, siteIdDescription.
  split.
  - intros site H. destruct (nonEmpty (getDefaultSiteId rt)); [|discriminate H].
    injection H as <-. split; reflexivity.
  - intros t H. destruct (nonEmpty (getDefaultSiteId rt)); [discriminate H|].
    split; reflexivity.
Qed.

Lemma siteIdDescription_names_the_default_witness :
  siteIdDescription happyUpstream =
    " If not provided, defaults to the configured site: test-site-id." /\
  siteIdDescription noDefaultSite = "".
Proof.
  destruct (siteIdDescription_names_the_default happyUpstream) as [Hset _].
  destruct (siteIdDescription_names_the_default noDefaultSite) as [_ Hunset].
  split.
  - exact (proj1 (Hset "test-site-id" eq_refl)).
  - exact (proj1 (Hunset (ErrorInstance siteIdRequired) eq_refl)).
Defined.


(** X20.  A site identifier that [resolveSiteId] returns is never empty,
    and is either the explicit argument or, when that is absent or empty,
    the default of the process. *)
Theorem resolveSiteId_returns_a_site rt siteId site :
  resolveSiteId rt siteId = Normal site ->
  site <> "" /\
  (siteId = Some site \/ (given siteId = false /\ site = getDefaultSiteId rt)).
Proof.
  unfold resolveSiteId. intros H.
  destruct siteId as [s|]; cbn [given ofOptString truthy].
  - destruct (nonEmpty s) eqn:Hs.
    + rewrite Hs in H. injection H as <-. split; [now destruct s | now left].
    + destruct (nonEmpty (getDefaultSiteId rt)) eqn:Hd; [|discriminate H].
      injection H as <-. split; [now destruct (getDefaultSiteId rt) | now right].
  - destruct (nonEmpty (getDefaultSiteId rt)) eqn:Hd; [|discriminate H].
    injection H as <-. split; [now destruct (getDefaultSiteId rt) | now right].
Qed.

Lemma resolveSiteId_returns_a_site_witness :
  "test-site-id" <> "" /\
  (Some "" = Some "test-site-id" \/
   (given (Some "") = false /\ "test-site-id" = getDefaultSiteId happyUpstream)).
Proof.
  apply (resolveSiteId_returns_a_site happyUpstream (Some "") "test-site-id").
  reflexivity.
Defined.

(** ** Results *)



(** X22.  No tool throws: for every runtime, input and log, [execute]
    returns a result object, whatever [fetch], the environment or the
    upstream answer do. *)
Theorem execute_never_throws rt call log :
  exists r, fst (execute rt call log) = Normal r.
Proof.
  destruct call; cbn [execute toolOf];
    unfold listSites, publishSite, listPages, updatePage, listForms,
      listFormSubmissions, listCustomCode, addCustomCode, tryCatch;
    match goal with
    | |- context [let (_, _) := ?body log in _] =>
        destruct (body log) as [[r|t] log']
    end; eexists; reflexivity.
Qed.

Lemma addCustomCodeBody_consistent rt input :
  yields (addCustomCodeBody rt input) addConsistent (fun _ => True).
Proof.
  unfold addCustomCodeBody.
  destruct (targetIsPage _ && negb _).
  { apply yields_ret. right. repeat split. now eexists. }
  destruct (2000 <? _)%nat.
  { apply yields_ret. right. repeat split. now eexists. }
  io_chain I.
  destruct (nonEmpty _) eqn:Hne; cbn [negb].
  - apply yields_bind; [apply yields_anything|]. intros _.
    apply yields_ret. left. cbn. repeat split; [|now eexists].
    intros Hempty. rewrite Hempty in Hne. discriminate Hne.
  - apply yields_ret. right. repeat split. now eexists.
Qed.

(** X23.  The result of a tool with a success flag is always one of two
    shapes, whatever the upstream does: a success with no error (and, for
    [updatePage], a page; for [addCustomCode], a non-empty script identifier
    and an [appliedTo]), or a failure with an error and no payload (no
    published domains, no page, the empty script identifier and no
    [appliedTo]). *)
Theorem flagged_results_are_consistent rt log :
  (forall input,
     exists r, fst (publishSite rt input log) = Normal r /\ publishConsistent r) /\
  (forall input,
     exists r, fst (updatePage rt input log) = Normal r /\ updateConsistent r) /\
  (forall input,
     exists r, fst (addCustomCode rt input log) = Normal r /\ addConsistent r).
Proof.
  repeat split; intros input.
  - eapply tryCatch_returns with (E := fun _ => True).
    + unfold publishSiteBody. io_chain I. apply yields_ret. now left.
    + intros t _. right. repeat split. now eexists.
  - eapply tryCatch_returns with (E := fun _ => True).
    + unfold updatePageBody. io_chain I. apply yields_ret. left.
      repeat split. now eexists.
    + intros t _. right. repeat split. now eexists.
  - eapply tryCatch_returns with (E := fun _ => True).
    + apply addCustomCodeBody_consistent.
    + intros t _. right. repeat split. now eexists.
Qed.
